(** * smart-youtube-agent: a shallow embedding of the managers and their checked properties

    The development follows the Python sources under [smart_youtube_agent/]:

    - [Py]           exceptions, the state-and-exception monad used for methods
                     that read and write the JSON stores, string helpers;
    - [Datetime]     the part of [datetime] the managers use, on proleptic
                     Gregorian day ordinals ([date.toordinal()]);
    - [Automation]   [automation_manager.py];
    - [Subscription] [subscription_manager.py];
    - [Brain]        the keyword fallback of [ai_brain.py];
    - [Video]        [video_manager.py], each method from its first line to
                     its last;
    - [Tasks]        [process_video] as a task of the event loop, cut at its
                     [await asyncio.sleep]s, with writes of [videos.json]
                     that may fail;
    - [SEO]          the title fallback of [seo_optimizer.py].
    - [Routes]       the video routes of [saas_routes.py], which call the
                     subscription and video managers.

    Each module of definitions is followed, in the second half of the file,
    by a module of facts about it ([AutomationFacts], [SubscriptionFacts], ...).

    Modelling conventions.  A Python [str] is a [string], one [ascii] per
    character.  A JSON store is the [gmap] it deserialises to; [load_*] reads
    the whole map and [save_*] replaces it.  Day arithmetic is done on
    unbounded ordinals (the [OverflowError] past year 9999 is not modelled).
    The managers' methods are synchronous and run in one piece.  The
    coroutine [process_video] is modelled twice: in [Video] as one piece,
    which is what it does when nothing else runs between its awaits and
    every write of [videos.json] goes through, and in [Tasks] turn by turn
    under an event loop that also runs other tasks and request handlers. *)

From Stdlib Require Import ZArith String Ascii List Lia Bool.
From stdpp Require Import base option gmap strings list pretty.

Open Scope string_scope.
Open Scope Z_scope.

(* ===================================================================== *)
(** ** Python basics *)
(* ===================================================================== *)

Module Py.

(** The exceptions the modelled code raises or catches. *)
Inductive exn : Type :=
| HTTPException (status_code : Z) (detail : string)
| ValueError (msg : string)
| KeyError (key : string)
| OSError (msg : string).

(** [str(e)] as used in log lines and in [mark_video_failed]; an
    [HTTPException] prints as its status code, a colon and its detail. *)
Definition str_of_exn (e : exn) : string :=
  match e with
  | HTTPException status_code detail => pretty status_code +:+ ": " +:+ detail
  | ValueError msg => msg
  | KeyError key => "'" +:+ key +:+ "'"
  | OSError msg => msg
  end.

Inductive outcome (A : Type) : Type :=
| Return (a : A)
| Raise (e : exn).
Arguments Return {A} a.
Arguments Raise {A} e.

(** A method over a world [W]: it returns or raises, and leaves a world. *)
Definition M (W A : Type) : Type := W → outcome A * W.

Definition ret {W A} (a : A) : M W A := λ w, (Return a, w).
Definition raise {W A} (e : exn) : M W A := λ w, (Raise e, w).
Definition bind {W A B} (c : M W A) (k : A → M W B) : M W B :=
  λ w, match c w with
       | (Return a, w') => k a w'
       | (Raise e, w') => (Raise e, w')
       end.
Definition get {W} : M W W := λ w, (Return w, w).
Definition put {W} (w : W) : M W unit := λ _, (Return tt, w).
Definition modify {W} (f : W → W) : M W unit := λ w, (Return tt, f w).

(** [try: c except Exception as e: h e] *)
Definition try_except {W A} (c : M W A) (h : exn → M W A) : M W A :=
  λ w, match c w with
       | (Return a, w') => (Return a, w')
       | (Raise e, w') => h e w'
       end.

(** [try: c except HTTPException: raise except Exception as e: h e] *)
Definition try_except_reraise_http {W A} (c : M W A) (h : exn → M W A) : M W A :=
  try_except c (λ e, match e with
                     | HTTPException _ _ => raise e
                     | _ => h e
                     end).

Definition result {W A} (r : outcome A * W) : outcome A := fst r.
Definition world {W A} (r : outcome A * W) : W := snd r.

(** Truthiness of the values the code tests with [if x] / [if not x]. *)
Definition truthy_str (o : option string) : bool :=
  match o with
  | Some s => negb (String.eqb s "")
  | None => false
  end.
Definition truthy_list {A} (o : option (list A)) : bool :=
  match o with
  | Some (_ :: _) => true
  | _ => false
  end.
Definition truthy_bool (o : option bool) : bool :=
  match o with
  | Some b => b
  | None => false
  end.

(** [sub in s] for strings. *)
Fixpoint contains (sub s : string) : bool :=
  String.prefix sub s ||
  match s with
  | EmptyString => false
  | String _ rest => contains sub rest
  end.

(** [str.lower()] on the ASCII range. *)
Definition lower_char (c : ascii) : ascii :=
  let n := nat_of_ascii c in
  if (Nat.leb 65 n && Nat.leb n 90)%bool then ascii_of_nat (n + 32) else c.
Fixpoint lower (s : string) : string :=
  match s with
  | EmptyString => EmptyString
  | String c rest => String (lower_char c) (lower rest)
  end.

(** [l.index(x)]: the first position of [x], or [ValueError]. *)
Fixpoint index_of (x : string) (l : list string) : option nat :=
  match l with
  | [] => None
  | y :: rest => if String.eqb x y then Some 0%nat
                 else S <$> index_of x rest
  end.

End Py.

Notation "x <- c ;; k" := (Py.bind c (λ x, k))
  (at level 100, c at next level, right associativity, only parsing).
Notation "c ;; k" := (Py.bind c (λ _, k))
  (at level 100, right associativity, only parsing).

(* ===================================================================== *)
(** ** datetime *)
(* ===================================================================== *)

Module Datetime.

Record time : Type := mk_time {
  hour : Z; minute : Z; second : Z; microsecond : Z
}.

(** A [datetime] is a calendar day, as [toordinal()] numbers it
    (day 1 is 0001-01-01, a Monday), and a time of day. *)
Record datetime : Type := mk_datetime {
  date : Z;
  tod : time
}.

(** Microseconds since midnight; times compare as these do. *)
Definition time_key (t : time) : Z :=
  ((hour t * 60 + minute t) * 60 + second t) * 1000000 + microsecond t.

Definition time_ge (a b : time) : bool := time_key b <=? time_key a.

(** [a < b] on datetimes: by day, then by time of day. *)
Definition dt_ltb (a b : datetime) : bool :=
  (date a <? date b) || ((date a =? date b) && (time_key (tod a) <? time_key (tod b))).
Definition dt_lt (a b : datetime) : Prop := dt_ltb a b = true.

(** [date.weekday()]: Monday is 0. *)
Definition weekday (d : datetime) : Z := (date d + 6) mod 7.

(** [d + timedelta(days=n)] *)
Definition add_days (d : datetime) (n : Z) : datetime :=
  {| date := date d + n; tod := tod d |}.

(** [datetime.combine(d.date(), t)] *)
Definition combine (d : datetime) (t : time) : datetime :=
  {| date := date d; tod := t |}.

Definition digit (c : ascii) : option Z :=
  let n := nat_of_ascii c in
  if (Nat.leb 48 n && Nat.leb n 57)%bool then Some (Z.of_nat (n - 48)) else None.

(** One numeric directive of [strptime]: one or two digits, at most [hi]
    ([%H] is [2[0-3]|[0-1]\d|\d], [%M] is [[0-5]\d|\d]). *)
Definition field (hi : Z) (s : string) : option Z :=
  match s with
  | String a EmptyString => digit a
  | String a (String b EmptyString) =>
      match digit a, digit b with
      | Some x, Some y => if 10 * x + y <=? hi then Some (10 * x + y) else None
      | _, _ => None
      end
  | _ => None
  end.

Fixpoint split_colon (s : string) : option (string * string) :=
  match s with
  | EmptyString => None
  | String c rest =>
      if Ascii.eqb c ":" then Some (EmptyString, rest)
      else match split_colon rest with
           | Some (h, m) => Some (String c h, m)
           | None => None
           end
  end.

(** [datetime.strptime(s, "%H:%M").time()]; [None] stands for [ValueError]. *)
Definition strptime_HM (s : string) : option time :=
  match split_colon s with
  | Some (h, m) =>
      match field 23 h, field 59 m with
      | Some hh, Some mm => Some (mk_time hh mm 0 0)
      | _, _ => None
      end
  | None => None
  end.

End Datetime.

(* ===================================================================== *)
(** ** automation_manager.py *)
(* ===================================================================== *)

Module Automation.
Import Py Datetime.

(** The [settings] dict a caller passes in; [None] is an absent key. *)
Record Settings : Type := mk_settings {
  s_enabled : option bool;
  s_niche : option string;
  s_frequency : option string;
  s_upload_days : option (list string);
  s_upload_time : option string
}.

(** The entry [save_user_settings] stores under a user id. *)
Record UserSettings : Type := mk_user_settings {
  enabled : bool;
  niche : string;
  frequency : string;
  upload_days : list string;
  upload_time : string;
  last_upload : option datetime;
  next_upload : option datetime
}.

(** A job of the [schedule] library: its tag, weekday and [at] time. *)
Record Job : Type := mk_job {
  job_tag : string;
  job_day : string;
  job_at : string
}.

(** [self.settings], the settings file, the jobs of [self.scheduler] and
    the jobs of the library's module-level scheduler ([schedule.every()]). *)
Record Manager : Type := mk_manager {
  settings : gmap string UserSettings;
  settings_file : gmap string UserSettings;
  own_jobs : list Job;
  default_jobs : list Job
}.

Definition set_settings (f : gmap string UserSettings → gmap string UserSettings)
    (m : Manager) : Manager :=
  mk_manager (f (settings m)) (settings_file m) (own_jobs m) (default_jobs m).
Definition set_own_jobs (f : list Job → list Job) (m : Manager) : Manager :=
  mk_manager (settings m) (settings_file m) (f (own_jobs m)) (default_jobs m).
Definition set_default_jobs (f : list Job → list Job) (m : Manager) : Manager :=
  mk_manager (settings m) (settings_file m) (own_jobs m) (f (default_jobs m)).

Definition days_of_week : list string :=
  ["monday"; "tuesday"; "wednesday"; "thursday"; "friday"; "saturday"; "sunday"].

(** [now.strftime("%A").lower()] in the C locale. *)
Definition strftime_A_lower (now : datetime) : string :=
  nth (Z.to_nat (weekday now)) days_of_week "".

(** The [for day in upload_days] loop: [None] when [index] raises,
    [Some None] when the loop ends without [break]. *)
Fixpoint find_next_day (current_day_index : nat) (upload_days : list string)
    : option (option string) :=
  match upload_days with
  | [] => Some None
  | day :: rest =>
      match index_of day days_of_week with
      | None => None
      | Some day_index =>
          if (current_day_index <? day_index)%nat then Some (Some day)
          else find_next_day current_day_index rest
      end
  end.

(** [_calculate_next_upload]; the result is the datetime whose
    [isoformat()] the method returns, [None] is its [None] (also returned
    from the [except] branch).  Both calls of [strptime] parse the same
    string, so one parse decides whether any of them raises. *)
Definition _calculate_next_upload (now : datetime) (s : Settings) : option datetime :=
  let upload_days := default [] (s_upload_days s) in
  let upload_time := default "09:00" (s_upload_time s) in
  match upload_days with
  | [] => None
  | first :: _ =>
      current_day_index ← index_of (strftime_A_lower now) days_of_week;
      found ← find_next_day current_day_index upload_days;
      let next_upload_day := default first found in
      target_day_index ← index_of next_upload_day days_of_week;
      let days_ahead := (Z.of_nat target_day_index - Z.of_nat current_day_index) mod 7 in
      t ← strptime_HM upload_time;
      let days_ahead :=
        if (days_ahead =? 0) && time_ge (tod now) t then 7 else days_ahead in
      Some (combine (add_days now days_ahead) t)
  end.

(** [_save_settings]: the file becomes a copy of [self.settings]. *)
Definition _save_settings : M Manager unit :=
  modify (λ m, mk_manager (settings m) (settings m) (own_jobs m) (default_jobs m)).

Section Scheduler.
(** Whether the library's [Job.at] accepts a time string. *)
Variable at_ok : string → bool.

(** The loop of [_schedule_user_job]; a rejected time raises, which the
    method's [except] swallows, so the loop just stops. *)
Fixpoint schedule_days (user_id at_time : string) (days : list string)
    (jobs : list Job) : list Job :=
  match days with
  | [] => jobs
  | day :: rest =>
      if bool_decide (day ∈ days_of_week) then
        if at_ok at_time
        then schedule_days user_id at_time rest (jobs ++ [mk_job user_id day at_time])%list
        else jobs
      else schedule_days user_id at_time rest jobs
  end.

(** [_schedule_user_job] *)
Definition _schedule_user_job (user_id : string) : M Manager unit :=
  m <- get ;;
  match settings m !! user_id with
  | None => ret tt
  | Some s =>
      if negb (enabled s) then ret tt
      else
        modify (set_own_jobs (filter (λ j, job_tag j ≠ user_id))) ;;
        modify (set_default_jobs (schedule_days user_id (upload_time s) (upload_days s)))
  end.

(** [save_user_settings] *)
Definition save_user_settings (now : datetime) (user_id : string) (s : Settings)
    : M Manager UserSettings :=
  try_except
    ((if negb (truthy_str (s_niche s))
      then raise (HTTPException 400 "Video niche is required") else ret tt) ;;
     (if negb (truthy_list (s_upload_days s))
      then raise (HTTPException 400 "At least one upload day is required") else ret tt) ;;
     match s_niche s, s_upload_days s with
     | Some the_niche, Some days =>
         modify (set_settings (insert user_id
           {| enabled := default true (s_enabled s);
              niche := the_niche;
              frequency := default "weekly" (s_frequency s);
              upload_days := days;
              upload_time := default "09:00" (s_upload_time s);
              last_upload := None;
              next_upload := _calculate_next_upload now s |})) ;;
         _save_settings ;;
         (if truthy_bool (s_enabled s) then _schedule_user_job user_id else ret tt) ;;
         m <- get ;;
         match settings m !! user_id with
         | Some entry => ret entry
         | None => raise (KeyError user_id)
         end
     | _, _ => raise (KeyError "niche")
     end)
    (λ _, raise (HTTPException 500 "Failed to save automation settings")).

(** [get_user_settings], as [set_enabled] uses it. *)
Definition get_user_settings (user_id : string) (m : Manager) : UserSettings :=
  default (mk_user_settings false "" "weekly" [] "09:00" None None)
          (settings m !! user_id).

(** A stored entry read back as the dict [_calculate_next_upload] takes. *)
Definition as_settings (u : UserSettings) : Settings :=
  mk_settings (Some (enabled u)) (Some (niche u)) (Some (frequency u))
              (Some (upload_days u)) (Some (upload_time u)).

Definition with_enabled (b : bool) (u : UserSettings) : UserSettings :=
  mk_user_settings b (niche u) (frequency u) (upload_days u) (upload_time u)
                   (last_upload u) (next_upload u).
Definition with_next_upload (n : option datetime) (u : UserSettings) : UserSettings :=
  mk_user_settings (enabled u) (niche u) (frequency u) (upload_days u)
                   (upload_time u) (last_upload u) n.

(** [set_enabled]: the sibling of [save_user_settings]; its handler
    lets an [HTTPException] through before the broad [except]. *)
Definition set_enabled (now : datetime) (user_id : string) (on : bool)
    : M Manager UserSettings :=
  try_except_reraise_http
    (m <- get ;;
     let current := get_user_settings user_id m in
     (if on && (String.eqb (niche current) "" || bool_decide (upload_days current = []))
      then raise (HTTPException 400
             "Please configure niche, days and time before enabling automation")
      else ret tt) ;;
     let entry := with_enabled on current in
     modify (set_settings (insert user_id entry)) ;;
     (if negb on
      then
        modify (set_own_jobs (filter (λ j, job_tag j ≠ user_id))) ;;
        modify (set_settings (insert user_id (with_next_upload None entry)))
      else
        modify (set_settings (insert user_id
          (with_next_upload (_calculate_next_upload now (as_settings entry)) entry))) ;;
        _schedule_user_job user_id) ;;
     _save_settings ;;
     m' <- get ;;
     match settings m' !! user_id with
     | Some e => ret e
     | None => raise (KeyError user_id)
     end)
    (λ _, raise (HTTPException 500 "Failed to update automation status")).

End Scheduler.

(** What the claim asks of the result: a configured weekday, at the
    configured time. *)
Definition occurrence (days : list string) (t : time) (d : datetime) : Prop :=
  strftime_A_lower d ∈ days ∧ tod d = t.

(** The earliest occurrence strictly after [now]. *)
Definition earliest_future_occurrence (days : list string) (t : time)
    (now d : datetime) : Prop :=
  occurrence days t d ∧ dt_lt now d ∧
  ∀ d', occurrence days t d' → dt_lt now d' → ¬ dt_lt d' d.

(** 2024-01-01, a Monday, at 08:00. *)
Definition monday_8am : datetime := mk_datetime 738886 (mk_time 8 0 0 0).

Definition mon_wed_9am : Settings :=
  mk_settings (Some true) (Some "tech") None
              (Some ["monday"; "wednesday"]) (Some "09:00").

(** A request without a niche, and a manager that already holds an
    entry for the user. *)
Definition no_niche : Settings :=
  mk_settings (Some true) None None (Some ["monday"]) (Some "09:00").

Definition one_user : Manager :=
  let entry := mk_user_settings true "cooking" "weekly" ["friday"] "18:30" None None in
  mk_manager {[ "u1" := entry ]} {[ "u1" := entry ]} [] [].


(** The entry [save_user_settings] builds from a request. *)
Definition entry_of (now : datetime) (s : Settings) (the_niche : string)
    (days : list string) : UserSettings :=
  {| enabled := default true (s_enabled s);
     niche := the_niche;
     frequency := default "weekly" (s_frequency s);
     upload_days := days;
     upload_time := default "09:00" (s_upload_time s);
     last_upload := None;
     next_upload := _calculate_next_upload now s |}.

(** The jobs [_schedule_user_job] registers for a user: one per listed
    day that the library knows, in list order. *)
Definition jobs_for (user_id at_time : string) (days : list string) : list Job :=
  (λ day, mk_job user_id day at_time) <$> filter (λ day, day ∈ days_of_week) days.

End Automation.

(* ===================================================================== *)
(** ** subscription_manager.py *)
(* ===================================================================== *)

Module Subscription.
Import Py Datetime.

(** Prices are whole-dollar amounts in the source ([29.0], [290.0], ...);
    they are only copied, never computed with, and are kept as integers. *)
Record SubscriptionTier : Type := mk_tier {
  name : string;
  price_monthly : Z;
  price_yearly : Z;
  video_limit : Z;
  features : list string;
  max_team_members : Z;
  priority_support : bool;
  custom_branding : bool;
  api_access : bool
}.

(** Dates are kept as the [datetime] their ISO strings denote. *)
Record Subscription : Type := mk_subscription {
  user_id : string;
  tier : string;
  status : string;
  start_date : datetime;
  end_date : datetime;
  billing_cycle : string;
  payment_method : option string;
  auto_renew : bool;
  trial_ends : option datetime
}.

Record BillingHistory : Type := mk_billing {
  bh_user_id : string;
  invoice_id : string;
  amount : Z;
  currency : string;
  bh_status : string;
  bh_date : datetime;
  description : string;
  bh_payment_method : option string
}.

Record UsageMetrics : Type := mk_usage {
  um_user_id : string;
  month : string;
  videos_created : Z;
  videos_uploaded : Z;
  api_calls : Z;
  storage_used : Z;
  team_members : Z
}.

(** The three JSON files. *)
Record Store : Type := mk_store {
  subscriptions : gmap string Subscription;
  billing : gmap string (list BillingHistory);
  usage : gmap string (gmap string UsageMetrics)
}.

Definition with_status (st : string) (s : Subscription) : Subscription :=
  mk_subscription (user_id s) (tier s) st (start_date s) (end_date s)
    (billing_cycle s) (payment_method s) (auto_renew s) (trial_ends s).
Definition with_tier (t : string) (s : Subscription) : Subscription :=
  mk_subscription (user_id s) t (status s) (start_date s) (end_date s)
    (billing_cycle s) (payment_method s) (auto_renew s) (trial_ends s).
Definition with_end_date (d : datetime) (s : Subscription) : Subscription :=
  mk_subscription (user_id s) (tier s) (status s) (start_date s) d
    (billing_cycle s) (payment_method s) (auto_renew s) (trial_ends s).

(** [self.tiers] *)
Definition tiers : gmap string SubscriptionTier :=
  list_to_map [
    ("Free", mk_tier "Free" 0 0 3
       ["Basic video creation"; "YouTube upload"; "Email support"]
       1 false false false);
    ("Starter", mk_tier "Starter" 29 290 20
       ["Advanced video creation"; "YouTube upload"; "Priority support";
        "Custom thumbnails"]
       3 true false false);
    ("Professional", mk_tier "Professional" 79 790 100
       ["Unlimited video creation"; "YouTube upload"; "Priority support";
        "Custom branding"; "API access"]
       10 true true true);
    ("Enterprise", mk_tier "Enterprise" 199 1990 (-1)
       ["Everything in Professional"; "Dedicated support";
        "Custom integrations"; "White-label solution"]
       (-1) true true true)
  ].

Definition load_subscriptions : M Store (gmap string Subscription) :=
  w <- get ;; ret (subscriptions w).
Definition save_subscriptions (subs : gmap string Subscription) : M Store unit :=
  modify (λ w, mk_store subs (billing w) (usage w)).
Definition load_billing : M Store (gmap string (list BillingHistory)) :=
  w <- get ;; ret (billing w).
Definition save_billing (b : gmap string (list BillingHistory)) : M Store unit :=
  modify (λ w, mk_store (subscriptions w) b (usage w)).
Definition load_usage : M Store (gmap string (gmap string UsageMetrics)) :=
  w <- get ;; ret (usage w).

Definition get_subscription (uid : string) : M Store (option Subscription) :=
  subs <- load_subscriptions ;; ret (subs !! uid).

Definition get_tier_info (tier_name : string) : option SubscriptionTier :=
  tiers !! tier_name.

Definition get_usage_metrics (uid month : string) : M Store (option UsageMetrics) :=
  u <- load_usage ;;
  ret (match u !! uid with
       | Some months => months !! month
       | None => None
       end).

Section Environment.
(** [datetime.utcnow()] as the calling method reads it, as
    [create_billing_record] reads it afterwards, the month string
    [utcnow().strftime("%Y-%m")], and [secrets.token_hex(8)]. *)
Variable now : datetime.
Variable billed_at : datetime.
Variable current_month : string.
Variable token_hex : string.

(** [create_billing_record] *)
Definition create_billing_record (uid tier_name cycle : string)
    : M Store BillingHistory :=
  match get_tier_info tier_name with
  | None => raise (HTTPException 400 "Invalid tier")
  | Some tier_info =>
      let amount :=
        if String.eqb cycle "yearly" then price_yearly tier_info
        else price_monthly tier_info in
      let invoice_id := "inv_" +:+ token_hex in
      let billing_record :=
        mk_billing uid invoice_id amount "USD" "paid" billed_at
          (tier_name +:+ " subscription - " +:+ cycle +:+ " billing") None in
      b <- load_billing ;;
      let b := match b !! uid with
               | None => <[uid := []]> b
               | Some _ => b
               end in
      let b := <[uid := (default [] (b !! uid) ++ [billing_record])%list]> b in
      save_billing b ;;
      ret billing_record
  end.



(** [check_video_limit] *)
Definition check_video_limit (uid : string) : M Store bool :=
  subscription <- get_subscription uid ;;
  match subscription with
  | None => ret false
  | Some subscription =>
      match get_tier_info (tier subscription) with
      | None => ret false
      | Some tier_info =>
          if video_limit tier_info =? -1 then ret true
          else
            u <- get_usage_metrics uid current_month ;;
            let created := match u with
                           | Some metrics => videos_created metrics
                           | None => 0
                           end in
            ret (created <? video_limit tier_info)
      end
  end.

(** [check_subscription_status] *)
Definition check_subscription_status (uid : string) : M Store string :=
  subscription <- get_subscription uid ;;
  match subscription with
  | None => ret "no_subscription"
  | Some subscription =>
      match String.eqb (status subscription) "trial", trial_ends subscription with
      | true, Some trial_end =>
          if dt_ltb trial_end now then
            let subscription :=
              with_end_date (add_days now 30)
                (with_tier "Free" (with_status "expired" subscription)) in
            subs <- load_subscriptions ;;
            save_subscriptions (<[uid := subscription]> subs) ;;
            ret (status subscription)
          else ret (status subscription)
      | _, _ =>
          if String.eqb (status subscription) "active"
             && dt_ltb (end_date subscription) now
          then
            if auto_renew subscription then
              let new_end_date :=
                if String.eqb (billing_cycle subscription) "yearly"
                then add_days (end_date subscription) 365
                else add_days (end_date subscription) 30 in
              let subscription := with_end_date new_end_date subscription in
              subs <- load_subscriptions ;;
              save_subscriptions (<[uid := subscription]> subs) ;;
              create_billing_record uid (tier subscription)
                (billing_cycle subscription) ;;
              ret (status subscription)
            else
              let subscription := with_status "expired" subscription in
              subs <- load_subscriptions ;;
              save_subscriptions (<[uid := subscription]> subs) ;;
              ret (status subscription)
          else ret (status subscription)
      end
  end.

End Environment.

(** *** What the renewal claim says, in the model's terms *)





(** The current-month [videos_created] count, 0 without a usage record. *)
Definition videos_created_in (w : Store) (uid month : string) : Z :=
  match usage w !! uid with
  | Some months =>
      match months !! month with
      | Some metrics => videos_created metrics
      | None => 0
      end
  | None => 0
  end.

(** *** Sample data *)

Definition jan_1 : datetime := mk_datetime 738886 (mk_time 8 0 0 0).

(** An overdue, auto-renewing monthly subscription on a tier that
    [self.tiers] does not list. *)
Definition gold_sub : Subscription :=
  mk_subscription "u1" "Gold" "active" (add_days jan_1 (-40)) (add_days jan_1 (-10))
    "monthly" None true None.

Definition starter_sub : Subscription :=
  mk_subscription "u1" "Starter" "active" (add_days jan_1 (-375)) (add_days jan_1 (-10))
    "yearly" None true None.
Definition free_sub : Subscription :=
  mk_subscription "u2" "Free" "active" (add_days jan_1 (-40)) (add_days jan_1 (-10))
    "monthly" None false None.
Definition two_users : Store :=
  mk_store {[ "u1" := starter_sub; "u2" := free_sub ]} ∅
           {[ "u2" := {[ "2024-01" := mk_usage "u2" "2024-01" 3 1 0 0 1 ]} ]}.

(** *** The rest of the manager *)

Section Signup.
(** [datetime.utcnow()] as [create_free_subscription] reads it. *)
Variable now : datetime.


End Signup.


(** The month record [update_usage_metrics] starts from. *)
Definition empty_usage (uid month : string) : UsageMetrics :=
  mk_usage uid month 0 0 0 0 0.

(** [record[metric_type] += value] when [metric_type] is a key of the
    record.  The five counters add; the keys ["user_id"] and ["month"]
    hold strings, for which [+=] with an int raises [TypeError] ([None]
    here); any other string is not a key and the record stays as it is. *)
Definition bump (metric_type : string) (value : Z) (r : UsageMetrics)
    : option UsageMetrics :=
  if String.eqb metric_type "videos_created" then
    Some (mk_usage (um_user_id r) (month r) (videos_created r + value)
            (videos_uploaded r) (api_calls r) (storage_used r) (team_members r))
  else if String.eqb metric_type "videos_uploaded" then
    Some (mk_usage (um_user_id r) (month r) (videos_created r)
            (videos_uploaded r + value) (api_calls r) (storage_used r) (team_members r))
  else if String.eqb metric_type "api_calls" then
    Some (mk_usage (um_user_id r) (month r) (videos_created r)
            (videos_uploaded r) (api_calls r + value) (storage_used r) (team_members r))
  else if String.eqb metric_type "storage_used" then
    Some (mk_usage (um_user_id r) (month r) (videos_created r)
            (videos_uploaded r) (api_calls r) (storage_used r + value) (team_members r))
  else if String.eqb metric_type "team_members" then
    Some (mk_usage (um_user_id r) (month r) (videos_created r)
            (videos_uploaded r) (api_calls r) (storage_used r) (team_members r + value))
  else if String.eqb metric_type "user_id" || String.eqb metric_type "month" then None
  else Some r.

(** How [update_usage_metrics] ends: the usage file saved, or the
    [TypeError] of [bump] raised before anything was written. *)
Inductive usage_outcome : Type :=
| UsageSaved (w : Store)
| UsageTypeError.

(** [update_usage_metrics], with [current_month] the string
    [utcnow().strftime("%Y-%m")]. *)
Definition update_usage_metrics (current_month uid metric_type : string) (value : Z)
    (w : Store) : usage_outcome :=
  let u := usage w in
  let u := match u !! uid with
           | None => <[uid := ∅]> u
           | Some _ => u
           end in
  let months := default ∅ (u !! uid) in
  let months := match months !! current_month with
                | None => <[current_month := empty_usage uid current_month]> months
                | Some _ => months
                end in
  match bump metric_type value
          (default (empty_usage uid current_month) (months !! current_month)) with
  | None => UsageTypeError
  | Some r =>
      UsageSaved (mk_store (subscriptions w) (billing w)
                    (<[uid := <[current_month := r]> months]> u))
  end.

(** The record [get_usage_metrics] finds for a user and a month. *)
Definition usage_record (w : Store) (uid month : string) : option UsageMetrics :=
  match usage w !! uid with
  | Some months => months !! month
  | None => None
  end.

End Subscription.

(* ===================================================================== *)
(** ** ai_brain.py: intent analysis *)
(* ===================================================================== *)

Module Brain.
Import Py.

(** The confidence scores are float literals with one decimal. *)
Inductive score : Type := Tenths (n : Z).

(** The dict [analyze_intent] returns. *)
Record Intent : Type := mk_intent {
  intent : string;
  confidence : score;
  parameters : list (string * string);
  suggested_actions : list string
}.

(** How [await send_to_openrouter(...)] ends.  The prompt only feeds
    that call, so the call's outcome is the input here. *)
Inductive llm_outcome : Type :=
| LLMRaises (e : exn)
| LLMReturns (response : option string).

(** The call failed: it raised, or returned [None] or an empty string. *)
Definition llm_failed (llm : llm_outcome) : Prop :=
  match llm with
  | LLMRaises _ => True
  | LLMReturns response => truthy_str response = false
  end.

(** [any(word in message_lower for word in words)] *)
Definition any_in (words : list string) (message_lower : string) : bool :=
  existsb (λ word, contains word message_lower) words.

(** The fallback [if]/[elif] chain. *)
Definition fallback_intent (message : string) : Intent :=
  let message_lower := lower message in
  if any_in ["create"; "make"; "generate"; "new video"] message_lower then
    mk_intent "create_video" (Tenths 8) [] ["ask_for_topic"]
  else if any_in ["script"; "modify"; "change"; "edit"] message_lower then
    mk_intent "modify_script" (Tenths 7) [] ["show_current_script"]
  else if any_in ["status"; "progress"; "how"] message_lower then
    mk_intent "get_status" (Tenths 9) [] ["show_status"]
  else if any_in ["upload"; "youtube"; "publish"] message_lower then
    mk_intent "upload_video" (Tenths 8) [] ["check_ready_to_upload"]
  else
    mk_intent "general_chat" (Tenths 5) [] ["provide_help"].

Section Json.
(** [json.loads] on the model's reply; [None] when it raises. *)
Variable json_loads : string → option Intent.

(** [analyze_intent]: the reply's JSON when the call gave a non-empty
    reply that parses; the keyword fallback in every other case. *)
Definition analyze_intent (llm : llm_outcome) (message : string) : Intent :=
  match llm with
  | LLMReturns (Some response) =>
      if truthy_str (Some response) then
        match json_loads response with
        | Some parsed => parsed
        | None => fallback_intent message
        end
      else fallback_intent message
  | LLMReturns None => fallback_intent message
  | LLMRaises _ => fallback_intent message
  end.
End Json.

(** *** The claim's table of keyword groups, in its fixed order *)

Definition keyword_groups : list (string * list string) :=
  [ ("create_video", ["create"; "make"; "generate"; "new video"]);
    ("modify_script", ["script"; "modify"; "change"; "edit"]);
    ("get_status", ["status"; "progress"; "how"]);
    ("upload_video", ["upload"; "youtube"; "publish"]) ].

(** A group matches when one of its keywords is a substring. *)
Definition group_matches (message_lower : string) (g : string * list string) : bool :=
  any_in (snd g) message_lower.

End Brain.

(* ===================================================================== *)
(** ** seo_optimizer.py: the title fallback *)
(* ===================================================================== *)

Module SEO.
Import Py.

Definition power_words : list string :=
  ["Ultimate"; "Complete"; "Best"; "Top"; "Amazing"; "Incredible"; "Essential";
   "Must-Watch"; "Comprehensive"; "Definitive"].

(** The [for power_word in power_words] loop: the first enhanced title
    of at most 60 characters, if any. *)
Fixpoint first_enhanced (title : string) (words : list string) : option string :=
  match words with
  | [] => None
  | power_word :: rest =>
      let enhanced_title := power_word +:+ " " +:+ title +:+ " 2024" in
      if (String.length enhanced_title <=? 60)%nat then Some enhanced_title
      else first_enhanced title rest
  end.

(** [_optimize_title_basic] *)
Definition _optimize_title_basic (title topic : string) : string :=
  match (if (String.length title <? 30)%nat
         then first_enhanced title power_words else None) with
  | Some enhanced_title => enhanced_title
  | None =>
      if negb (contains "2024" title) && (String.length title <? 55)%nat
      then title +:+ " 2024"
      else String.substring 0 60 title
  end.

(** *** Scoring and keywords *)

(** [calculate_seo_score] *)
Definition calculate_seo_score (title description : string) (keywords : list string)
    : Z :=
  let score := 0 in
  let score :=
    if (30 <=? String.length title)%nat && (String.length title <=? 60)%nat
    then score + 20 else score in
  let score :=
    if existsb (λ word, contains word (lower title))
               ["how to"; "best"; "top"; "amazing"; "viral"]
    then score + 10 else score in
  let score :=
    if (200 <=? String.length description)%nat then score + 20 else score in
  let score :=
    if contains "subscribe" (lower description) then score + 10 else score in
  let score :=
    if contains "like" (lower description) && contains "share" (lower description)
    then score + 10 else score in
  let score := if (10 <=? length keywords)%nat then score + 15 else score in
  let score := if (length keywords <=? 15)%nat then score + 15 else score in
  Z.min score 100.

(** [str.isspace] on the characters below 256. *)
Definition is_space (c : ascii) : bool :=
  let n := nat_of_ascii c in
  ((9 <=? n)%nat && (n <=? 13)%nat) || ((28 <=? n)%nat && (n <=? 32)%nat)
  || (n =? 133)%nat || (n =? 160)%nat.

(** [s.split()]: the maximal runs of non-space characters. *)
Fixpoint split_from (cur s : string) : list string :=
  match s with
  | EmptyString => if String.eqb cur "" then [] else [cur]
  | String c rest =>
      if is_space c
      then (if String.eqb cur "" then split_from "" rest
            else cur :: split_from "" rest)
      else split_from (cur +:+ String c EmptyString) rest
  end.
Definition str_split (s : string) : list string := split_from "" s.

(** [list(dict.fromkeys(l))]: first occurrences, in order. *)
Fixpoint fromkeys_from (seen l : list string) : list string :=
  match l with
  | [] => []
  | x :: rest =>
      if bool_decide (x ∈ seen) then fromkeys_from seen rest
      else x :: fromkeys_from (x :: seen) rest
  end.
Definition fromkeys (l : list string) : list string := fromkeys_from [] l.

Definition power_keywords : list string :=
  ["best"; "ultimate"; "complete"; "amazing"; "incredible"; "viral"; "trending"; "top";
   "how to"; "tips"; "tricks"; "secrets"; "guide"; "tutorial"].

Definition base_keywords : list string :=
  ["youtube"; "video"; "content"; "creator"; "trending"; "viral"; "shorts"; "2024";
   "latest"].

(** The topic-specific branch of [_generate_enhanced_keywords]. *)
Definition topic_keywords (topic_lower : string) : list string :=
  if contains "tech" topic_lower || contains "technology" topic_lower
     || contains "ai" topic_lower then
    ["tech"; "technology"; "innovation"; "digital"; "future"; "ai";
     "artificial intelligence"; "machine learning"; "automation";
     "digital transformation"; "tech trends"; "innovation"; "startup";
     "digital marketing"]
  else if contains "business" topic_lower || contains "entrepreneur" topic_lower then
    ["business"; "entrepreneur"; "success"; "money"; "startup"; "marketing"; "strategy";
     "growth"; "leadership"; "management"; "business tips"; "entrepreneurship";
     "side hustle"; "passive income"]
  else if contains "education" topic_lower || contains "learn" topic_lower
          || contains "tutorial" topic_lower then
    ["education"; "learning"; "tutorial"; "how to"; "tips"; "skills"; "knowledge";
     "training"; "course"; "online learning"; "self improvement";
     "personal development"; "study tips"; "academic"]
  else if contains "entertainment" topic_lower || contains "fun" topic_lower then
    ["entertainment"; "fun"; "viral"; "trending"; "amazing"; "comedy"; "lifestyle";
     "vlog"; "daily life"; "funny"; "entertaining"; "reaction"; "challenge"]
  else if contains "fitness" topic_lower || contains "health" topic_lower
          || contains "workout" topic_lower then
    ["fitness"; "health"; "workout"; "exercise"; "wellness"; "nutrition"; "diet"; "gym";
     "training"; "weight loss"; "muscle building"; "healthy lifestyle"; "fitness tips";
     "motivation"]
  else if contains "cooking" topic_lower || contains "food" topic_lower
          || contains "recipe" topic_lower then
    ["cooking"; "food"; "recipe"; "delicious"; "kitchen"; "chef"; "cooking tips";
     "easy recipes"; "quick meals"; "healthy food"; "cooking tutorial"; "kitchen hacks";
     "meal prep"]
  else if contains "gaming" topic_lower || contains "game" topic_lower then
    ["gaming"; "game"; "streamer"; "esports"; "gaming tips"; "gameplay"; "walkthrough";
     "review"; "gaming setup"; "pc gaming"; "console gaming"; "mobile gaming"]
  else if contains "travel" topic_lower || contains "trip" topic_lower then
    ["travel"; "trip"; "vacation"; "adventure"; "exploring"; "travel tips";
     "budget travel"; "travel vlog"; "destination"; "travel guide"; "backpacking";
     "solo travel"]
  else
    ["trending"; "viral"; "amazing"; "best"; "top"; "popular"; "must watch";
     "recommended"; "favorite"; "essential"; "ultimate guide"; "complete tutorial"].

(** [_generate_enhanced_keywords] *)
Definition _generate_enhanced_keywords (topic : string) : list string :=
  let topic_lower := lower topic in
  let topic_words := filter (λ word, (2 < String.length word)%nat) (str_split topic) in
  let enhanced_topic_words :=
    topic_words ≫= λ word,
      [word; word +:+ " tips"; word +:+ " tutorial"; "best " +:+ word;
       "how to " +:+ word] in
  let all_keywords :=
    (power_keywords ++ base_keywords ++ topic_keywords topic_lower
     ++ enhanced_topic_words)%list in
  take 20 (fromkeys all_keywords).

End SEO.

(* ===================================================================== *)
(** ** video_manager.py *)
(* ===================================================================== *)

Module Video.
Import Py.

(** A record of [videos.json]: the fields of [VideoStatus] and the three
    path keys the stages add ([None] is a missing key or a null). *)
Record Video : Type := mk_video {
  video_id : string;
  user_id : string;
  status : string;
  progress : Z;
  created_at : string;
  updated_at : string;
  title : string;
  description : string;
  youtube_id : option string;
  youtube_url : option string;
  local_path : option string;
  thumbnail_path : option string;
  error_message : option string;
  script_path : option string;
  audio_path : option string;
  video_path : option string
}.

Definition with_status (x : string) (v : Video) : Video :=
  mk_video (video_id v) (user_id v) x (progress v) (created_at v) (updated_at v)
    (title v) (description v) (youtube_id v) (youtube_url v) (local_path v)
    (thumbnail_path v) (error_message v) (script_path v) (audio_path v) (video_path v).
Definition with_progress (x : Z) (v : Video) : Video :=
  mk_video (video_id v) (user_id v) (status v) x (created_at v) (updated_at v)
    (title v) (description v) (youtube_id v) (youtube_url v) (local_path v)
    (thumbnail_path v) (error_message v) (script_path v) (audio_path v) (video_path v).
Definition with_updated_at (x : string) (v : Video) : Video :=
  mk_video (video_id v) (user_id v) (status v) (progress v) (created_at v) x
    (title v) (description v) (youtube_id v) (youtube_url v) (local_path v)
    (thumbnail_path v) (error_message v) (script_path v) (audio_path v) (video_path v).
Definition with_local_path (x : option string) (v : Video) : Video :=
  mk_video (video_id v) (user_id v) (status v) (progress v) (created_at v) (updated_at v)
    (title v) (description v) (youtube_id v) (youtube_url v) x
    (thumbnail_path v) (error_message v) (script_path v) (audio_path v) (video_path v).
Definition with_thumbnail_path (x : option string) (v : Video) : Video :=
  mk_video (video_id v) (user_id v) (status v) (progress v) (created_at v) (updated_at v)
    (title v) (description v) (youtube_id v) (youtube_url v) (local_path v)
    x (error_message v) (script_path v) (audio_path v) (video_path v).
Definition with_error_message (x : option string) (v : Video) : Video :=
  mk_video (video_id v) (user_id v) (status v) (progress v) (created_at v) (updated_at v)
    (title v) (description v) (youtube_id v) (youtube_url v) (local_path v)
    (thumbnail_path v) x (script_path v) (audio_path v) (video_path v).
Definition with_script_path (x : option string) (v : Video) : Video :=
  mk_video (video_id v) (user_id v) (status v) (progress v) (created_at v) (updated_at v)
    (title v) (description v) (youtube_id v) (youtube_url v) (local_path v)
    (thumbnail_path v) (error_message v) x (audio_path v) (video_path v).
Definition with_audio_path (x : option string) (v : Video) : Video :=
  mk_video (video_id v) (user_id v) (status v) (progress v) (created_at v) (updated_at v)
    (title v) (description v) (youtube_id v) (youtube_url v) (local_path v)
    (thumbnail_path v) (error_message v) (script_path v) x (video_path v).
Definition with_video_path (x : option string) (v : Video) : Video :=
  mk_video (video_id v) (user_id v) (status v) (progress v) (created_at v) (updated_at v)
    (title v) (description v) (youtube_id v) (youtube_url v) (local_path v)
    (thumbnail_path v) (error_message v) (script_path v) (audio_path v) x.

Inductive stage : Type :=
| GenerateScript | GenerateAudio | GenerateVideoContent | GenerateThumbnail
| FinalizeVideo.

(** What an observer of a run sees: a stage being entered, and each
    content written to [videos.json]. *)
Inductive event : Type :=
| Entered (s : stage)
| Saved (videos : gmap string Video).

(** [videos.json], the files under [videos/], the number of clock reads
    so far, and the observed events, oldest first. *)
Record World : Type := mk_world {
  videos_file : gmap string Video;
  files : gset string;
  ticks : nat;
  log : list event
}.

Definition load_videos : M World (gmap string Video) :=
  w <- get ;; ret (videos_file w).

(** [save_videos] when the write goes through; its [except] branch, the
    [HTTPException] of a failed write, is in [Tasks.save_videos]. *)
Definition save_videos (videos : gmap string Video) : M World unit :=
  modify (λ w, mk_world videos (files w) (ticks w) (log w ++ [Saved videos])%list).

(** Bookkeeping only: notes that a stage's coroutine has started. *)
Definition enter (s : stage) : M World unit :=
  modify (λ w, mk_world (videos_file w) (files w) (ticks w) (log w ++ [Entered s])%list).

(** [os.remove] inside [try: ... except: pass] *)
Definition remove_quietly (path : option string) : M World unit :=
  match path with
  | Some p =>
      if String.eqb p "" then ret tt
      else modify (λ w, mk_world (videos_file w) (files w ∖ {[p]}) (ticks w) (log w))
  | None => ret tt
  end.

Section Environment.
(** [self.videos_dir]; the ISO string of the n-th reading of
    [datetime.utcnow()]; and for each path whether
    [open(path, "w")] and the write go through ([None]) or raise
    the given exception. *)
Variable videos_dir : string.
Variable utcnow : nat → string.
Variable write_error : string → option exn.

Definition utcnow_isoformat : M World string :=
  w <- get ;;
  put (mk_world (videos_file w) (files w) (S (ticks w)) (log w)) ;;
  ret (utcnow (ticks w)).

Definition write_file (path : string) : M World unit :=
  match write_error path with
  | Some e => raise e
  | None =>
      modify (λ w, mk_world (videos_file w) (files w ∪ {[path]}) (ticks w) (log w))
  end.

(** [os.path.join(self.videos_dir, sub, video_id + suffix)] *)
Definition path_in (sub video_id suffix : string) : string :=
  videos_dir +:+ "/" +:+ sub +:+ "/" +:+ video_id +:+ suffix.

(** The file each stage writes. *)
Definition stage_path (s : stage) (video_id : string) : string :=
  match s with
  | GenerateScript => path_in "temp" video_id "_script.txt"
  | GenerateAudio => path_in "temp" video_id "_audio.wav"
  | GenerateVideoContent => path_in "temp" video_id "_content.mp4"
  | GenerateThumbnail => path_in "thumbnails" video_id "_thumb.jpg"
  | FinalizeVideo => path_in "completed" video_id "_final.mp4"
  end.

(** The five stages share one shape: load the file afresh, look the
    record up, sleep, write the stage's file, set one path key, save the
    dict loaded before the sleep.  Here nothing runs during the sleep, so
    that dict is still the file's content; [Tasks.stage_before_sleep] and
    [Tasks.stage_after_sleep] are the two halves with the event loop in
    between. *)
Definition run_stage (s : stage) (set_path : option string → Video → Video)
    (vid : string) : M World unit :=
  enter s ;;
  videos <- load_videos ;;
  match videos !! vid with
  | None => raise (KeyError vid)
  | Some video =>
      write_file (stage_path s vid) ;;
      save_videos (<[vid := set_path (Some (stage_path s vid)) video]> videos)
  end.

Definition generate_script := run_stage GenerateScript with_script_path.
Definition generate_audio := run_stage GenerateAudio with_audio_path.
Definition generate_video_content := run_stage GenerateVideoContent with_video_path.
Definition generate_thumbnail := run_stage GenerateThumbnail with_thumbnail_path.
Definition finalize_video := run_stage FinalizeVideo with_local_path.

(** [mark_video_failed] *)
Definition mark_video_failed (vid error : string) : M World unit :=
  videos <- load_videos ;;
  match videos !! vid with
  | Some video =>
      t <- utcnow_isoformat ;;
      save_videos
        (<[vid := with_updated_at t
                    (with_error_message (Some error) (with_status "failed" video))]>
           videos)
  | None => ret tt
  end.

(** [video["progress"] = p; video["updated_at"] = utcnow; save_videos(videos)]
    on the dict [process_video] loaded at its start: [video] aliases
    that dict's entry, so the whole local dict is what gets saved. *)
Definition checkpoint (vid : string) (f : Video → Video)
    (videos : gmap string Video) : M World (gmap string Video) :=
  t <- utcnow_isoformat ;;
  let videos := alter (λ v, with_updated_at t (f v)) vid videos in
  save_videos videos ;;
  ret videos.

(** [process_video], run from its first line to its last with no other
    task or handler in between and every write of [videos.json] going
    through; [Tasks.resume] runs it one turn at a time, and
    [TasksFacts.run_alone_process_video] relates the two. *)
Definition process_video (vid : string) : M World unit :=
  try_except
    (videos <- load_videos ;;
     match videos !! vid with
     | None => ret tt
     | Some _ =>
         videos <- checkpoint vid (λ v, with_progress 10 (with_status "processing" v))
                     videos ;;
         generate_script vid ;;
         videos <- checkpoint vid (with_progress 30) videos ;;
         generate_audio vid ;;
         videos <- checkpoint vid (with_progress 50) videos ;;
         generate_video_content vid ;;
         videos <- checkpoint vid (with_progress 80) videos ;;
         generate_thumbnail vid ;;
         videos <- checkpoint vid (with_progress 95) videos ;;
         finalize_video vid ;;
         videos <- checkpoint vid (λ v, with_progress 100 (with_status "completed" v))
                     videos ;;
         ret tt
     end)
    (λ e, mark_video_failed vid (str_of_exn e)).

(** The body of [process_video] after its first checkpoint is five
    times the same two statements; [steps] lists what varies, and
    [run_steps] replays them. *)
Record step : Type := mk_step {
  step_stage : stage;
  step_path : option string → Video → Video;
  step_progress : Z;
  step_status : option string
}.

Definition step_update (st : step) (v : Video) : Video :=
  with_progress (step_progress st)
    (match step_status st with
     | Some x => with_status x v
     | None => v
     end).

Definition steps : list step :=
  [ mk_step GenerateScript with_script_path 30 None;
    mk_step GenerateAudio with_audio_path 50 None;
    mk_step GenerateVideoContent with_video_path 80 None;
    mk_step GenerateThumbnail with_thumbnail_path 95 None;
    mk_step FinalizeVideo with_local_path 100 (Some "completed") ].

Fixpoint run_steps (l : list step) (vid : string) (videos : gmap string Video)
    : M World unit :=
  match l with
  | [] => ret tt
  | st :: rest =>
      run_stage (step_stage st) (step_path st) vid ;;
      videos <- checkpoint vid (step_update st) videos ;;
      run_steps rest vid videos
  end.

End Environment.

(** [delete_video] *)
Definition delete_video (vid uid : string) : M World bool :=
  videos <- load_videos ;;
  match videos !! vid with
  | Some video =>
      if String.eqb (user_id video) uid then
        remove_quietly (local_path video) ;;
        remove_quietly (thumbnail_path video) ;;
        remove_quietly (script_path video) ;;
        remove_quietly (audio_path video) ;;
        remove_quietly (video_path video) ;;
        save_videos (delete vid videos) ;;
        ret true
      else ret false
  | None => ret false
  end.

(** *** Reading a run's events *)

Definition pipeline : list stage :=
  [GenerateScript; GenerateAudio; GenerateVideoContent; GenerateThumbnail; FinalizeVideo].

(** The stages entered, in order. *)
Definition stages_of (l : list event) : list stage :=
  omap (λ e, match e with Entered s => Some s | Saved _ => None end) l.

(** The persisted progress of one video after each write of the file. *)
Definition progress_of (vid : string) (l : list event) : list Z :=
  omap (λ e, match e with
             | Saved videos => progress <$> videos !! vid
             | Entered _ => None
             end) l.

(** A sequence of values with immediate repetitions dropped. *)
Fixpoint changes (l : list Z) : list Z :=
  match l with
  | [] => []
  | x :: rest =>
      match rest with
      | y :: _ => if x =? y then changes rest else x :: changes rest
      | [] => [x]
      end
  end.

(** The progress values a run writes from progress [p] on: each step
    saves the current value once more (the stage's own save), then the
    step's value (the checkpoint). *)
Fixpoint expected_progress (p : Z) (targets : list Z) : list Z :=
  match targets with
  | [] => []
  | q :: rest => p :: q :: expected_progress q rest
  end.

(** [w'] continues [w]'s log with events showing these stages and these
    persisted progress values of [vid]. *)
Definition emits (vid : string) (w w' : World) (entered : list stage)
    (persisted : list Z) : Prop :=
  ∃ trace, log w' = (log w ++ trace)%list ∧ stages_of trace = entered ∧
           progress_of vid trace = persisted.

(** A path setter leaves progress and status alone. *)
Definition keeps (set_path : option string → Video → Video) : Prop :=
  ∀ p v, progress (set_path p v) = progress v ∧ status (set_path p v) = status v.

(** A step whose file can be written and whose setter only sets a path. *)
Definition step_clear (videos_dir : string) (write_error : string → option exn)
    (vid : string) (st : step) : Prop :=
  write_error (stage_path videos_dir (step_stage st) vid) = None ∧ keeps (step_path st).

(** Status and progress of the record after the checkpoints of [l]. *)
Definition status_after (l : list step) (start : string) : string :=
  fold_left (λ a st, default a (step_status st)) l start.
Definition progress_after (l : list step) (start : Z) : Z :=
  fold_left (λ _ st, step_progress st) l start.

Fixpoint nondecreasing (l : list Z) : bool :=
  match l with
  | x :: rest =>
      match rest with
      | y :: _ => (x <=? y) && nondecreasing rest
      | [] => true
      end
  | [] => true
  end.

(** *** Sample data *)

Definition sample_video : Video :=
  mk_video "video_01" "alice" "pending" 0 "2024-01-01T08:00:00" "2024-01-01T08:00:00"
    "Sourdough" "" None None None None None None None None.
Definition other_video : Video :=
  mk_video "video_02" "bob" "completed" 100 "2023-12-31T08:00:00" "2023-12-31T09:00:00"
    "Rye" "" None None (Some "videos/completed/video_02_final.mp4") None None None None None.
Definition sample_world : World :=
  mk_world {[ "video_01" := sample_video; "video_02" := other_video ]}
           {[ "videos/completed/video_02_final.mp4" ]} 0 [].

Definition clock (n : nat) : string := "t" +:+ pretty n.
Definition no_write_error (path : string) : option exn := None.
Definition audio_write_error (path : string) : option exn :=
  if String.eqb path "videos/temp/video_01_audio.wav"
  then Some (OSError "[Errno 28] No space left on device") else None.

(** *** The rest of the manager *)

(** [VideoRequest] *)
Record VideoRequest : Type := mk_request {
  rq_title : string;
  rq_description : option string;
  rq_topic : string;
  rq_duration : option Z;
  rq_style : option string;
  rq_language : option string;
  rq_tags : option (list string);
  rq_thumbnail_prompt : option string
}.

(** A stored record read into [VideoStatus]: the extra path keys are not
    fields of that model and are dropped. *)
Definition as_status (v : Video) : Video :=
  with_video_path None (with_audio_path None (with_script_path None v)).

(** [get_video] *)
Definition get_video (vid : string) : M World (option Video) :=
  videos <- load_videos ;; ret (as_status <$> videos !! vid).

(** The manager's world together with the [process_video] coroutines
    handed to the event loop by [asyncio.create_task] and not yet run,
    oldest first. *)
Record Runtime : Type := mk_runtime {
  rt_world : World;
  rt_tasks : list string
}.

Definition in_world {A} (c : M World A) : M Runtime A :=
  λ rt, let (o, w') := c (rt_world rt) in (o, mk_runtime w' (rt_tasks rt)).

(** [asyncio.create_task(self.process_video(video_id))] *)
Definition create_task (vid : string) : M Runtime unit :=
  modify (λ rt, mk_runtime (rt_world rt) (rt_tasks rt ++ [vid])%list).

Section Requests.
(** The clock, and [secrets.token_hex(8)] as [generate_video_id] draws it. *)
Variable utcnow : nat → string.
Variable token_hex : string.

(** [generate_video_id] *)
Definition generate_video_id : string := "video_" +:+ token_hex.

(** [create_video_request] *)
Definition create_video_request (uid : string) (video_data : VideoRequest)
    : M Runtime Video :=
  videos <- in_world load_videos ;;
  let vid := generate_video_id in
  now <- in_world (utcnow_isoformat utcnow) ;;
  let video_status :=
    mk_video vid uid "pending" 0 now now (rq_title video_data)
      (match rq_description video_data with
       | Some d => d
       | None => ""
       end)
      None None None None None None None None in
  in_world (save_videos (<[vid := video_status]> videos)) ;;
  create_task vid ;;
  ret video_status.

End Requests.


(** The record a run of [l] leaves from record [v], the clock standing
    at reading [tick]: each step's checkpoint rewrites progress, status
    and [updated_at] of the record loaded at the start. *)
Fixpoint replay_record (utcnow : nat → string) (l : list step) (tick : nat)
    (v : Video) : Video :=
  match l with
  | [] => v
  | st :: rest =>
      replay_record utcnow rest (S tick) (with_updated_at (utcnow tick) (step_update st v))
  end.

(** The files the stages of [l] write. *)
Definition stage_files (videos_dir : string) (l : list step) (vid : string)
    : gset string :=
  list_to_set ((λ st, stage_path videos_dir (step_stage st) vid) <$> l).

End Video.

(* ===================================================================== *)
(** ** video_manager.py: [process_video] as a task of the event loop *)
(* ===================================================================== *)

Module Tasks.
Import Py Video.

(** [Video] describes one call of [process_video] from its first line
    to its last with nothing else touching [videos.json] in between and
    every write of that file going through.  Here neither is assumed: a
    [process_video] coroutine gives the event loop the hand at the
    [await asyncio.sleep] of each stage, where other coroutines and
    request handlers run, and [save_videos] may fail. *)

(** How one call of [save_videos] ends.  [Written]: [json.dump] went
    through.  [Refused]: [open(self.videos_file, "w")] raised and the
    file is as it was.  [Truncated]: [open] emptied the file and the dump
    or the closing flush raised, leaving text that [json.load] rejects,
    so that [load_videos] answers [{}].  In the last two cases
    [save_videos] raises its [HTTPException]. *)
Inductive write_outcome : Type := Written | Refused | Truncated.

(** [HTTPException(status_code=500, detail="Failed to save video data")] *)
Definition save_failure : exn := HTTPException 500 "Failed to save video data".

(** The manager's world and the number of calls of [save_videos] so far. *)
Record Disk : Type := mk_disk {
  dk_world : World;
  dk_saves : nat
}.

Definition on_world {A} (c : M World A) : M Disk A :=
  λ d, let (o, w') := c (dk_world d) in (o, mk_disk w' (dk_saves d)).

(** A [process_video] coroutine between two turns of the event loop:
    handed to the loop by [create_task] and not started yet; suspended
    in the [asyncio.sleep] of the stage of [st], holding the dict
    [process_video] loaded at its start ([videos]) and the dict the stage
    loaded before going to sleep ([stage_videos]), with the steps that
    follow; returned; or ended by an exception. *)
Inductive task : Type :=
| Created (vid : string)
| Sleeping (vid : string) (st : step) (rest : list step)
    (videos stage_videos : gmap string Video)
| Finished
| Crashed (e : exn).

(** The event loop: the disk and the tasks in the order of their creation. *)
Record Loop : Type := mk_loop {
  lp_disk : Disk;
  lp_tasks : list task
}.

Definition on_disk {A} (c : M Disk A) : M Loop A :=
  λ lp, let (o, d') := c (lp_disk lp) in (o, mk_loop d' (lp_tasks lp)).

(** [asyncio.create_task(self.process_video(video_id))] *)
Definition create_task (vid : string) : M Loop unit :=
  modify (λ lp, mk_loop (lp_disk lp) (lp_tasks lp ++ [Created vid])%list).

(** What the loop does next: it gives the [i]-th task its turn, or a
    route handler calls [create_video_request] (with the token that
    [secrets.token_hex(8)] draws). *)
Inductive action : Type :=
| Resume (i : nat)
| Request (token_hex uid : string) (video_data : VideoRequest).

Section Environment.
(** As in [Video], and how the [n]-th call of [save_videos] ends. *)
Variable videos_dir : string.
Variable utcnow : nat → string.
Variable write_error : string → option exn.
Variable save_outcome : nat → write_outcome.

Definition load_videos : M Disk (gmap string Video) :=
  on_world Video.load_videos.

(** [save_videos]: the call is counted and ends as [save_outcome] says; a
    truncated file is the empty store to every [load_videos] that follows. *)
Definition save_videos (videos : gmap string Video) : M Disk unit :=
  d <- get ;;
  put (mk_disk (dk_world d) (S (dk_saves d))) ;;
  match save_outcome (dk_saves d) with
  | Written => on_world (Video.save_videos videos)
  | Refused => raise save_failure
  | Truncated => on_world (Video.save_videos ∅) ;; raise save_failure
  end.

(** A stage up to its [await asyncio.sleep]: it loads the file and
    looks the record up; the dict stays with the sleeping coroutine. *)
Definition stage_before_sleep (s : stage) (vid : string)
    : M Disk (gmap string Video) :=
  on_world (enter s) ;;
  videos <- load_videos ;;
  match videos !! vid with
  | None => raise (KeyError vid)
  | Some _ => ret videos
  end.

(** The stage after its sleep: it writes its file, sets the path key
    in the record of the dict it loaded before sleeping, and saves that
    dict. *)
Definition stage_after_sleep (s : stage) (set_path : option string → Video → Video)
    (vid : string) (stage_videos : gmap string Video) : M Disk unit :=
  on_world (write_file write_error (stage_path videos_dir s vid)) ;;
  save_videos (alter (set_path (Some (stage_path videos_dir s vid))) vid stage_videos).

(** A checkpoint of [process_video], on its own dict. *)
Definition checkpoint (vid : string) (f : Video → Video)
    (videos : gmap string Video) : M Disk (gmap string Video) :=
  t <- on_world (utcnow_isoformat utcnow) ;;
  let videos := alter (λ v, with_updated_at t (f v)) vid videos in
  save_videos videos ;;
  ret videos.

(** [mark_video_failed]; it awaits nothing, so it runs in one piece. *)
Definition mark_video_failed (vid error : string) : M Disk unit :=
  videos <- load_videos ;;
  match videos !! vid with
  | Some video =>
      t <- on_world (utcnow_isoformat utcnow) ;;
      save_videos
        (<[vid := with_updated_at t
                    (with_error_message (Some error) (with_status "failed" video))]>
           videos)
  | None => ret tt
  end.

(** [process_video] from the end of a checkpoint on: it calls the next
    stage, which runs up to its sleep, or it returns. *)
Definition proceed (vid : string) (l : list step) (videos : gmap string Video)
    : M Disk task :=
  match l with
  | [] => ret Finished
  | st :: rest =>
      stage_videos <- stage_before_sleep (step_stage st) vid ;;
      ret (Sleeping vid st rest videos stage_videos)
  end.

(** The [try] body of [process_video] from its first line to the first
    sleep. *)
Definition begin (vid : string) : M Disk task :=
  videos <- load_videos ;;
  match videos !! vid with
  | None => ret Finished
  | Some _ =>
      videos <- checkpoint vid (λ v, with_progress 10 (with_status "processing" v))
                  videos ;;
      proceed vid steps videos
  end.

(** The [try] body from a wake-up to the next sleep: the rest of the
    stage, the checkpoint after it, and on to the next stage. *)
Definition wake (vid : string) (st : step) (rest : list step)
    (videos stage_videos : gmap string Video) : M Disk task :=
  stage_after_sleep (step_stage st) (step_path st) vid stage_videos ;;
  videos <- checkpoint vid (step_update st) videos ;;
  proceed vid rest videos.

(** [except Exception as e: await self.mark_video_failed(video_id, str(e))],
    after which the coroutine returns. *)
Definition guarded (vid : string) (c : M Disk task) : M Disk task :=
  try_except c (λ e, mark_video_failed vid (str_of_exn e) ;; ret Finished).

(** The rest of a turn from the point [c] inside the [try]: the task
    runs to its next sleep, to its return, or to the exception that
    leaves the coroutine (the one [mark_video_failed] raised), which the
    loop only logs. *)
Definition turn_of (vid : string) (c : M Disk task) (d : Disk) : task * Disk :=
  match guarded vid c d with
  | (Return t', d') => (t', d')
  | (Raise e, d') => (Crashed e, d')
  end.

(** One turn of a task. *)
Definition resume (t : task) (d : Disk) : task * Disk :=
  match t with
  | Created vid => turn_of vid (begin vid) d
  | Sleeping vid st rest videos stage_videos =>
      turn_of vid (wake vid st rest videos stage_videos) d
  | Finished => (Finished, d)
  | Crashed e => (Crashed e, d)
  end.

(** A task given one turn after the other, with nothing else running
    in between, until it has ended. *)
Fixpoint run_alone (fuel : nat) (t : task) (d : Disk) : task * Disk :=
  match fuel with
  | O => (t, d)
  | S fuel' =>
      match t with
      | Finished | Crashed _ => (t, d)
      | _ => let (t', d') := resume t d in run_alone fuel' t' d'
      end
  end.

(** The same from the point [c] of a turn under way. *)
Definition run_from (fuel : nat) (vid : string) (c : M Disk task) (d : Disk)
    : task * Disk :=
  let (t, d') := turn_of vid c d in run_alone fuel t d'.

(** [create_video_request] *)
Definition create_video_request (token_hex uid : string) (video_data : VideoRequest)
    : M Loop Video :=
  videos <- on_disk load_videos ;;
  let vid := generate_video_id token_hex in
  now <- on_disk (on_world (utcnow_isoformat utcnow)) ;;
  let video_status :=
    mk_video vid uid "pending" 0 now now (rq_title video_data)
      (match rq_description video_data with
       | Some d => d
       | None => ""
       end)
      None None None None None None None None in
  on_disk (save_videos (<[vid := video_status]> videos)) ;;
  create_task vid ;;
  ret video_status.

Definition turn (lp : Loop) (a : action) : Loop :=
  match a with
  | Resume i =>
      match lp_tasks lp !! i with
      | Some t =>
          let (t', d') := resume t (lp_disk lp) in
          mk_loop d' (<[i := t']> (lp_tasks lp))
      | None => lp
      end
  | Request token_hex uid video_data =>
      snd (create_video_request token_hex uid video_data lp)
  end.

(** The loop taking the turns of [schedule] in order. *)
Definition run_schedule (schedule : list action) (lp : Loop) : Loop :=
  fold_left turn schedule lp.

End Environment.

(** The log of a loop, the stored record of a video, and the stage a
    task sleeps in. *)
Definition lp_log (lp : Loop) : list event := log (dk_world (lp_disk lp)).
Definition lp_record (lp : Loop) (vid : string) : option Video :=
  videos_file (dk_world (lp_disk lp)) !! vid.
Definition sleeping_in (t : task) : option stage :=
  match t with
  | Sleeping _ st _ _ _ => Some (step_stage st)
  | _ => None
  end.

(** The persisted status of one video after each write of the file. *)
Definition statuses_of (vid : string) (l : list event) : list string :=
  omap (λ e, match e with
             | Saved videos => status <$> videos !! vid
             | Entered _ => None
             end) l.

(** *** Sample data *)

Definition all_written (n : nat) : write_outcome := Written.

(** Every call of [save_videos] from the [n]-th on is refused; the
    [n]-th alone is. *)
Definition refused_from (n k : nat) : write_outcome :=
  if (n <=? k)%nat then Refused else Written.
Definition refused_at (n k : nat) : write_outcome :=
  if (n =? k)%nat then Refused else Written.
Definition truncated_at (n k : nat) : write_outcome :=
  if (n =? k)%nat then Truncated else Written.

Definition idle : Loop :=
  mk_loop (mk_disk (mk_world ∅ ∅ 0 []) 0) [].

Definition bread : VideoRequest :=
  mk_request "Sourdough" (Some "") "baking" (Some 60) (Some "educational") (Some "en")
    (Some []) (Some "").
Definition rye : VideoRequest :=
  mk_request "Rye" (Some "") "baking" (Some 60) (Some "educational") (Some "en")
    (Some []) (Some "").

(** Two requests one second apart; each task starts after its request,
    and the two then wake in turn, as their sleeps have the same lengths
    (2, 3, 5, 2 and 2 seconds): the turns fall at seconds 0, 1, 2, 3, 5, 6,
    10, 11, 12, 13, 14 and 15. *)
Definition overlapping : list action :=
  [ Request "01" "alice" bread; Resume 0; Request "02" "bob" rye; Resume 1;
    Resume 0; Resume 1; Resume 0; Resume 1; Resume 0; Resume 1; Resume 0; Resume 1;
    Resume 0; Resume 1 ].

(** A task that started one second before the next request came in
    wakes after the new task has started: the turns fall at seconds 0, 1,
    2 and 3. *)
Definition late_request : list action :=
  [ Request "02" "bob" rye; Resume 0; Request "01" "alice" bread; Resume 1;
    Resume 0; Resume 1 ].

(** One request, and the first two turns of its task alone. *)
Definition single : list action :=
  [ Request "01" "alice" bread; Resume 0; Resume 0 ].

Definition script_write_error (path : string) : option exn :=
  if String.eqb path "videos/temp/video_01_script.txt"
  then Some (OSError "[Errno 28] No space left on device") else None.

End Tasks.

(* ===================================================================== *)
(** ** saas_routes.py: the video routes *)
(* ===================================================================== *)

Module Routes.
Import Py.

(** The two managers the routes call. *)
Record App : Type := mk_app {
  app_subscriptions : Subscription.Store;
  app_videos : Video.Runtime
}.

Definition in_subscriptions {A} (c : M Subscription.Store A) : M App A :=
  λ a, let (o, s') := c (app_subscriptions a) in (o, mk_app s' (app_videos a)).

Definition in_videos {A} (c : M Video.Runtime A) : M App A :=
  λ a, let (o, v') := c (app_videos a) in (o, mk_app (app_subscriptions a) v').

Section Handlers.
(** The clock of the video manager, the month string of the usage update,
    and the token of [generate_video_id]. *)
Variable utcnow : nat → string.
Variable current_month : string.
Variable token_hex : string.

(** [subscription_manager.update_usage_metrics(uid, metric)] inside a
    route's [try]: its [TypeError] is no [HTTPException], so it reaches
    the route's [except Exception] and leaves as the route's 500. *)
Definition count_usage (uid metric_type failure : string) : M App unit :=
  λ a, match Subscription.update_usage_metrics current_month uid metric_type 1
               (app_subscriptions a) with
       | Subscription.UsageSaved s' => (Return tt, mk_app s' (app_videos a))
       | Subscription.UsageTypeError => (Raise (HTTPException 500 failure), a)
       end.

(** [POST /api/videos/create] for the authenticated user [uid]; the
    result is [video_status] of the reply. *)
Definition create_video (uid : string) (video_data : Video.VideoRequest)
    : M App Video.Video :=
  try_except_reraise_http
    (allowed <- in_subscriptions (Subscription.check_video_limit current_month uid) ;;
     (if negb allowed
      then raise (HTTPException 403 "Video limit reached for your subscription tier")
      else ret tt) ;;
     video_status <- in_videos (Video.create_video_request utcnow token_hex uid
                                  video_data) ;;
     count_usage uid "videos_created" "Failed to create video" ;;
     ret video_status)
    (λ _, raise (HTTPException 500 "Failed to create video")).

(** [GET /api/videos/{video_id}] *)
Definition get_video (vid uid : string) : M App Video.Video :=
  try_except_reraise_http
    (video <- in_videos (Video.in_world (Video.get_video vid)) ;;
     match video with
     | None => raise (HTTPException 404 "Video not found")
     | Some video =>
         if negb (String.eqb (Video.user_id video) uid)
         then raise (HTTPException 403 "Access denied")
         else ret video
     end)
    (λ _, raise (HTTPException 500 "Failed to get video")).

(** [DELETE /api/videos/{video_id}] *)
Definition delete_video (vid uid : string) : M App unit :=
  try_except_reraise_http
    (success <- in_videos (Video.in_world (Video.delete_video vid uid)) ;;
     if negb success
     then raise (HTTPException 404 "Video not found or access denied")
     else ret tt)
    (λ _, raise (HTTPException 500 "Failed to delete video")).

End Handlers.

(** The month's [videos_created] of a user, as the limit check reads it. *)
Definition created (a : App) (uid month : string) : Z :=
  Subscription.videos_created_in (app_subscriptions a) uid month.

(** The user's tier limit, when the subscription and its tier are known. *)
Definition limit_of (a : App) (uid : string) : option Z :=
  match Subscription.subscriptions (app_subscriptions a) !! uid with
  | Some s => Subscription.video_limit <$> Subscription.get_tier_info (Subscription.tier s)
  | None => None
  end.

(** *** Sample data *)

Definition sample_app : App :=
  mk_app Subscription.two_users (Video.mk_runtime Video.sample_world []).

End Routes.
(* ===================================================================== *)
(** * Properties *)
(* ===================================================================== *)

Module DatetimeFacts.
Import Datetime.

Lemma dt_lt_later_day a b : date a < date b → dt_lt a b.
Proof.
  intros H. unfold dt_lt, dt_ltb.
  apply orb_true_iff. left. by apply Z.ltb_lt.
Qed.

Lemma dt_lt_same_day a b :
  date a = date b → time_key (tod a) < time_key (tod b) → dt_lt a b.
Proof.
  intros Hd Ht. unfold dt_lt, dt_ltb.
  apply orb_true_iff. right. apply andb_true_iff. split.
  - by apply Z.eqb_eq.
  - by apply Z.ltb_lt.
Qed.


End DatetimeFacts.

Module PyFacts.
Import Py.

Lemma index_of_nth x l i :
  index_of x l = Some i → nth i l "" = x ∧ (i < length l)%nat.
Proof.
  revert i. induction l as [|y l IH]; intros i; simpl; [done|].
  destruct (String.eqb_spec x y) as [->|Hne].
  - intros [= <-]. split; [done | lia].
  - destruct (index_of x l) as [j|]; simpl; [|done].
    intros [= <-]. destruct (IH j eq_refl) as [Hn Hl]. split; [done | simpl; lia].
Qed.

Lemma index_of_elem x l : x ∈ l → is_Some (index_of x l).
Proof.
  induction 1 as [x l | x y l _ IH]; simpl.
  - rewrite String.eqb_refl. by eexists.
  - destruct (String.eqb x y); [by eexists|].
    destruct IH as [j ->]. by eexists.
Qed.

Lemma run_bind {W A B} (c : M W A) (k : A → M W B) w a w' :
  c w = (Return a, w') → bind c k w = k a w'.
Proof. intros H. unfold bind. by rewrite H. Qed.

Lemma run_bind_raise {W A B} (c : M W A) (k : A → M W B) w e w' :
  c w = (Raise e, w') → bind c k w = (Raise e, w').
Proof. intros H. unfold bind. by rewrite H. Qed.

End PyFacts.

Module AutomationFacts.
Import Py Datetime Automation DatetimeFacts PyFacts.

Lemma weekday_range d : 0 ≤ weekday d < 7.
Proof. unfold weekday. apply Z.mod_pos_bound. lia. Qed.

(** The weekday name of a datetime sits at its [weekday()] position. *)
Lemma index_of_strftime now :
  index_of (strftime_A_lower now) days_of_week = Some (Z.to_nat (weekday now)).
Proof.
  unfold strftime_A_lower. pose proof (weekday_range now) as Hw.
  assert (Hcases : weekday now = 0 ∨ weekday now = 1 ∨ weekday now = 2 ∨
                   weekday now = 3 ∨ weekday now = 4 ∨ weekday now = 5 ∨
                   weekday now = 6) by lia.
  destruct Hcases as [-> | [-> | [-> | [-> | [-> | [-> | ->]]]]]]; reflexivity.
Qed.

Lemma find_next_day_found c l d :
  find_next_day c l = Some (Some d) →
  d ∈ l ∧ ∃ i, index_of d days_of_week = Some i ∧ (c < i)%nat.
Proof.
  induction l as [|day l IH]; cbn [find_next_day]; [done|].
  destruct (index_of day days_of_week) as [i|] eqn:Hi; [|done].
  destruct (Nat.ltb_spec c i) as [Hlt|Hge].
  - intros [= <-]. split; [left | eauto].
  - intros H. destruct (IH H) as [Hin Hex]. split; [by right | done].
Qed.

Lemma find_next_day_total c l :
  Forall (λ day, day ∈ days_of_week) l → is_Some (find_next_day c l).
Proof.
  induction 1 as [|day l Hday _ IH]; cbn [find_next_day]; [by eexists|].
  destruct (index_of_elem _ _ Hday) as [i ->].
  destruct (c <? i)%nat; [by eexists | done].
Qed.

(** The part of the claim the code does meet: with valid settings the
    method returns a datetime on a configured weekday, at the configured
    time, strictly after [now]. *)
Lemma calculate_next_upload_future_occurrence now s days t :
  s_upload_days s = Some days → days ≠ [] →
  Forall (λ day, day ∈ days_of_week) days →
  strptime_HM (default "09:00" (s_upload_time s)) = Some t →
  ∃ d, _calculate_next_upload now s = Some d ∧ occurrence days t d ∧ dt_lt now d.
Proof.
  intros Hdays Hne Hvalid Ht. unfold _calculate_next_upload.
  rewrite Hdays. change (default [] (Some days)) with days.
  destruct days as [|first rest]; [done|].
  rewrite index_of_strftime. cbn [mbind option_bind].
  destruct (find_next_day_total (Z.to_nat (weekday now)) _ Hvalid) as [found Hfound].
  rewrite Hfound. cbn [mbind option_bind].
  set (next := default first found).
  assert (Hnext : next ∈ first :: rest ∧ next ∈ days_of_week).
  { subst next. destruct found as [d|]; simpl.
    - destruct (find_next_day_found _ _ _ Hfound) as [Hin _]. split; [done|].
      by eapply Forall_forall in Hvalid.
    - split; [left|]. by inversion Hvalid. }
  destruct Hnext as [Hin Hday].
  destruct (index_of_elem _ _ Hday) as [ti Hti]. rewrite Hti.
  cbn [mbind option_bind]. rewrite Ht. cbn [mbind option_bind].
  destruct (index_of_nth _ _ _ Hti) as [Hnth Hlen].
  change (length days_of_week) with 7%nat in Hlen.
  pose proof (weekday_range now) as Hw.
  set (k0 := (Z.of_nat ti - Z.of_nat (Z.to_nat (weekday now))) mod 7).
  assert (Hk0 : 0 ≤ k0 < 7) by (apply Z.mod_pos_bound; lia).
  set (k := if (k0 =? 0) && time_ge (tod now) t then 7 else k0).
  assert (Hk : (date now + k + 6) mod 7 = Z.of_nat ti).
  { assert (Hmod : (date now + k + 6) mod 7 = (date now + 6 + k0) mod 7).
    { subst k. destruct ((k0 =? 0) && time_ge (tod now) t) eqn:Hc.
      - apply andb_true_iff in Hc as [Hz _]. apply Z.eqb_eq in Hz. rewrite Hz.
        replace (date now + 7 + 6) with (date now + 6 + 0 + 1 * 7) by lia.
        by rewrite Z.mod_add by lia.
      - f_equal. lia. }
    rewrite Hmod. subst k0. rewrite Z.add_mod_idemp_r by lia.
    rewrite Z2Nat.id by lia. unfold weekday.
    replace (date now + 6 + (Z.of_nat ti - (date now + 6) mod 7))
      with (Z.of_nat ti + ((date now + 6) - (date now + 6) mod 7)) by lia.
    rewrite (Z.div_mod (date now + 6) 7) at 1 by lia.
    replace (Z.of_nat ti + (7 * ((date now + 6) / 7) + (date now + 6) mod 7
                            - (date now + 6) mod 7))
      with (Z.of_nat ti + ((date now + 6) / 7) * 7) by lia.
    rewrite Z.mod_add by lia. apply Z.mod_small. lia. }
  eexists. split; [reflexivity|]. split.
  - split; [|done]. unfold strftime_A_lower, weekday. simpl date.
    fold k. rewrite Hk, Nat2Z.id, Hnth. done.
  - fold k. subst k. destruct ((k0 =? 0) && time_ge (tod now) t) eqn:Hc.
    + apply dt_lt_later_day. simpl. lia.
    + apply andb_false_iff in Hc as [Hz | Hge].
      * apply dt_lt_later_day. simpl. apply Z.eqb_neq in Hz. lia.
      * destruct (Z.eq_dec k0 0) as [Hz|Hz].
        -- apply dt_lt_same_day; simpl; [lia|].
           unfold time_ge in Hge. by apply Z.leb_gt in Hge.
        -- apply dt_lt_later_day. simpl. lia.
Qed.

(** C1 (the code departs from the claim).  On Monday 2024-01-01 at 08:00,
    with upload days Monday and Wednesday at 09:00, the method returns
    Wednesday 2024-01-03 09:00, which is not the earliest strictly-future
    occurrence: Monday 09:00 of the same day comes first. *)
Theorem calculate_next_upload_skips_today :
  _calculate_next_upload monday_8am mon_wed_9am
    = Some (mk_datetime 738888 (mk_time 9 0 0 0)) ∧
  ¬ earliest_future_occurrence ["monday"; "wednesday"] (mk_time 9 0 0 0)
      monday_8am (mk_datetime 738888 (mk_time 9 0 0 0)).
Proof.
  split; [reflexivity|].
  intros (_ & _ & Hmin).
  apply (Hmin (mk_datetime 738886 (mk_time 9 0 0 0))).
  - split; [|done]. change (strftime_A_lower _) with "monday". left.
  - reflexivity.
  - reflexivity.
Qed.

(** The same happens when the list is not in week order: the loop takes
    the first listed day after today, not the nearest one. *)
Example calculate_next_upload_list_order :
  _calculate_next_upload monday_8am
    (mk_settings None (Some "tech") None (Some ["friday"; "tuesday"]) None)
    = Some (mk_datetime 738890 (mk_time 9 0 0 0)).
Proof. reflexivity. Qed.

(** A request that fails validation never reaches the store: the 400
    raised by the check is caught by the method's own [except Exception]
    and leaves as a 500. *)
Lemma save_user_settings_invalid at_ok now user_id s m :
  truthy_str (s_niche s) = false ∨ truthy_list (s_upload_days s) = false →
  save_user_settings at_ok now user_id s m
    = (Raise (HTTPException 500 "Failed to save automation settings"), m).
Proof.
  intros H. unfold save_user_settings, try_except, bind.
  destruct (truthy_str (s_niche s)) eqn:Hn; simpl.
  - destruct H as [H|H]; [done|]. by rewrite H.
  - done.
Qed.

(** C4 (the code departs from the claim).  A settings dict without a
    niche makes [save_user_settings] raise an HTTP error with status 500,
    not 400; the manager's settings and the settings file are unchanged. *)
Theorem save_user_settings_missing_niche_is_500 :
  save_user_settings (λ _, true) monday_8am "u1" no_niche one_user
    = (Raise (HTTPException 500 "Failed to save automation settings"), one_user).
Proof. apply save_user_settings_invalid. by left. Qed.

(** The sibling method keeps the 400 of the same kind of check. *)
Lemma set_enabled_unconfigured_is_400 at_ok now user_id m :
  settings m !! user_id = None →
  set_enabled at_ok now user_id true m
    = (Raise (HTTPException 400
         "Please configure niche, days and time before enabling automation"), m).
Proof.
  intros H. unfold set_enabled, try_except_reraise_http, try_except, bind, get,
    get_user_settings. rewrite H. reflexivity.
Qed.

(** *** Further facts about the manager *)

Lemma schedule_days_ok at_ok user_id at_time days jobs :
  at_ok at_time = true →
  schedule_days at_ok user_id at_time days jobs
    = (jobs ++ jobs_for user_id at_time days)%list.
Proof.
  intros Hok. revert jobs. unfold jobs_for.
  induction days as [|day days IH]; intros jobs; cbn [schedule_days].
  - by rewrite app_nil_r.
  - rewrite filter_cons. destruct (decide (day ∈ days_of_week)) as [Hin|Hout].
    + rewrite bool_decide_eq_true_2 by done. rewrite Hok, IH.
      by rewrite fmap_cons, <- app_assoc.
    + rewrite bool_decide_eq_false_2 by done. apply IH.
Qed.

Lemma schedule_user_job_run at_ok user_id m :
  _schedule_user_job at_ok user_id m
    = (Return tt,
       match settings m !! user_id with
       | Some s =>
           if enabled s then
             mk_manager (settings m) (settings_file m)
               (filter (λ j, job_tag j ≠ user_id) (own_jobs m))
               (schedule_days at_ok user_id (upload_time s) (upload_days s)
                  (default_jobs m))
           else m
       | None => m
       end).
Proof.
  unfold _schedule_user_job, bind, get, ret, modify. cbv beta iota.
  destruct (settings m !! user_id) as [s|]; [|done].
  by destruct (enabled s).
Qed.



(** The exact manager a valid request leaves behind. *)
Lemma save_user_settings_run at_ok now user_id s m the_niche days :
  s_niche s = Some the_niche → the_niche ≠ "" →
  s_upload_days s = Some days → days ≠ [] →
  let entry := entry_of now s the_niche days in
  let stored := <[user_id := entry]> (settings m) in
  save_user_settings at_ok now user_id s m
    = (Return entry,
       if truthy_bool (s_enabled s) then
         mk_manager stored stored
           (filter (λ j, job_tag j ≠ user_id) (own_jobs m))
           (schedule_days at_ok user_id (upload_time entry) days (default_jobs m))
       else mk_manager stored stored (own_jobs m) (default_jobs m)).
Proof.
  intros Hn Hne Hd Hde entry stored.
  unfold save_user_settings, try_except.
  assert (Htn : truthy_str (s_niche s) = true).
  { rewrite Hn. simpl. by destruct (String.eqb_spec the_niche ""). }
  assert (Htd : truthy_list (s_upload_days s) = true).
  { rewrite Hd. by destruct days. }
  rewrite Htn, Htd, Hn, Hd. cbn [negb].
  unfold bind at 1. unfold ret at 1. unfold bind at 1. unfold ret at 1.
  unfold bind at 1. unfold modify at 1.
  unfold bind at 1. unfold _save_settings, modify at 1.
  cbn [settings settings_file own_jobs default_jobs set_settings].
  fold (entry_of now s the_niche days). fold entry. fold stored.
  destruct (truthy_bool (s_enabled s)) eqn:Hen.
  - erewrite run_bind by apply schedule_user_job_run.
    cbn [settings settings_file own_jobs default_jobs].
    subst stored. rewrite lookup_insert_eq.
    assert (He : enabled entry = true).
    { subst entry. unfold entry_of. cbn [enabled].
      destruct (s_enabled s) as [[|]|]; done. }
    rewrite He. unfold bind, get, ret. cbn [settings].
    by rewrite lookup_insert_eq.
  - unfold bind, get, ret. cbn [settings]. subst stored.
    by rewrite lookup_insert_eq.
Qed.

(** X2.  Scheduling on save: a valid request with [enabled: true] (and
    a time the library accepts) appends one job per listed weekday to the
    module-level scheduler and removes none of the jobs already there, the
    user's own earlier jobs included; a valid request without
    [enabled: true] touches no job list, although its stored entry is
    enabled when the key is absent. *)
Theorem save_user_settings_jobs at_ok now user_id s m the_niche days :
  s_niche s = Some the_niche → the_niche ≠ "" →
  s_upload_days s = Some days → days ≠ [] →
  (s_enabled s = Some true →
     at_ok (default "09:00" (s_upload_time s)) = true →
     default_jobs (world (save_user_settings at_ok now user_id s m))
       = (default_jobs m
          ++ jobs_for user_id (default "09:00" (s_upload_time s)) days)%list) ∧
  (s_enabled s ≠ Some true →
     default_jobs (world (save_user_settings at_ok now user_id s m)) = default_jobs m ∧
     own_jobs (world (save_user_settings at_ok now user_id s m)) = own_jobs m) ∧
  (s_enabled s = None →
     enabled <$> settings (world (save_user_settings at_ok now user_id s m)) !! user_id
       = Some true).
Proof.
  intros Hn Hne Hd Hde.
  rewrite (save_user_settings_run at_ok now user_id s m the_niche days) by done.
  unfold world. cbn [snd]. split; [|split].
  - intros Hen Hok. rewrite Hen. cbn [truthy_bool default_jobs].
    by apply schedule_days_ok.
  - intros Hen. destruct (s_enabled s) as [[|]|]; [done| |]; by cbn.
  - intros Hen. rewrite Hen. cbn [truthy_bool settings].
    rewrite lookup_insert_eq. unfold entry_of. by rewrite Hen.
Qed.

Lemma save_user_settings_jobs_witness :
  default_jobs (world (save_user_settings (λ _, true) monday_8am "u1" mon_wed_9am
                         (world (save_user_settings (λ _, true) monday_8am "u1"
                                   mon_wed_9am one_user))))
    = [mk_job "u1" "monday" "09:00"; mk_job "u1" "wednesday" "09:00";
       mk_job "u1" "monday" "09:00"; mk_job "u1" "wednesday" "09:00"].
Proof.
  rewrite (proj1 (save_user_settings_jobs (λ _, true) monday_8am "u1" mon_wed_9am
                    (world (save_user_settings (λ _, true) monday_8am "u1"
                              mon_wed_9am one_user))
                    "tech" ["monday"; "wednesday"] eq_refl ltac:(discriminate)
                    eq_refl ltac:(discriminate)) eq_refl eq_refl).
  reflexivity.
Defined.

(** X3.  Enabling automation for a user whose niche or upload days are
    not configured (an unknown user included) raises HTTP 400 and changes
    nothing. *)
Theorem set_enabled_requires_configuration at_ok now user_id m :
  niche (get_user_settings user_id m) = "" ∨
  upload_days (get_user_settings user_id m) = [] →
  set_enabled at_ok now user_id true m
    = (Raise (HTTPException 400
         "Please configure niche, days and time before enabling automation"), m).
Proof.
  intros H. unfold set_enabled, try_except_reraise_http, try_except.
  unfold bind at 1. unfold get at 1. cbv beta iota.
  assert (Hc : true && (String.eqb (niche (get_user_settings user_id m)) ""
                        || bool_decide (upload_days (get_user_settings user_id m) = []))
               = true).
  { destruct H as [H|H]; rewrite H; [done|]. rewrite bool_decide_eq_true_2 by done.
    by rewrite orb_true_r. }
  rewrite Hc. reflexivity.
Qed.

Lemma set_enabled_requires_configuration_witness :
  set_enabled (λ _, true) monday_8am "nobody" true one_user
    = (Raise (HTTPException 400
         "Please configure niche, days and time before enabling automation"), one_user).
Proof.
  apply (set_enabled_requires_configuration (λ _, true) monday_8am "nobody" one_user).
  left. reflexivity.
Defined.


Lemma strftime_weekday a b :
  strftime_A_lower a = strftime_A_lower b → weekday a = weekday b.
Proof.
  intros H. pose proof (index_of_strftime a) as Ha.
  rewrite H, index_of_strftime in Ha.
  pose proof (weekday_range a). pose proof (weekday_range b).
  injection Ha as Ha. lia.
Qed.

(** Every datetime the method returns has this shape: [k] days after
    today, at the parsed time, on a listed weekday; [k] is 0 only while
    today's slot is still ahead and 7 only once it has passed. *)
Lemma calculate_next_upload_shape now s d :
  _calculate_next_upload now s = Some d →
  ∃ k t,
    d = combine (add_days now k) t ∧ 0 ≤ k ≤ 7 ∧
    strptime_HM (default "09:00" (s_upload_time s)) = Some t ∧
    strftime_A_lower d ∈ default [] (s_upload_days s) ∧
    (k = 0 → time_key (tod now) < time_key t) ∧
    (k = 7 → time_key t ≤ time_key (tod now)).
Proof.
  unfold _calculate_next_upload.
  destruct (default [] (s_upload_days s)) as [|first rest] eqn:Hdays; [done|].
  rewrite index_of_strftime. cbn [mbind option_bind].
  destruct (find_next_day (Z.to_nat (weekday now)) (first :: rest))
    as [found|] eqn:Hfound; [|done].
  cbn [mbind option_bind].
  set (next := default first found).
  assert (Hin : next ∈ first :: rest).
  { subst next. destruct found as [x|]; simpl; [|left].
    by destruct (find_next_day_found _ _ _ Hfound). }
  destruct (index_of next days_of_week) as [ti|] eqn:Hti; [|done].
  cbn [mbind option_bind].
  destruct (strptime_HM (default "09:00" (s_upload_time s))) as [t|] eqn:Ht; [|done].
  cbn [mbind option_bind].
  destruct (index_of_nth _ _ _ Hti) as [Hnth Hlen].
  change (length days_of_week) with 7%nat in Hlen.
  pose proof (weekday_range now) as Hw.
  set (k0 := (Z.of_nat ti - Z.of_nat (Z.to_nat (weekday now))) mod 7).
  assert (Hk0 : 0 ≤ k0 < 7) by (apply Z.mod_pos_bound; lia).
  set (k := if (k0 =? 0) && time_ge (tod now) t then 7 else k0).
  intros [= <-]. exists k, t.
  assert (Hk : (date now + k + 6) mod 7 = Z.of_nat ti).
  { assert (Hmod : (date now + k + 6) mod 7 = (date now + 6 + k0) mod 7).
    { subst k. destruct ((k0 =? 0) && time_ge (tod now) t) eqn:Hc.
      - apply andb_true_iff in Hc as [Hz _]. apply Z.eqb_eq in Hz. rewrite Hz.
        replace (date now + 7 + 6) with (date now + 6 + 0 + 1 * 7) by lia.
        by rewrite Z.mod_add by lia.
      - f_equal. lia. }
    rewrite Hmod. subst k0. rewrite Z.add_mod_idemp_r by lia.
    rewrite Z2Nat.id by lia. unfold weekday.
    replace (date now + 6 + (Z.of_nat ti - (date now + 6) mod 7))
      with (Z.of_nat ti + ((date now + 6) - (date now + 6) mod 7)) by lia.
    rewrite (Z.div_mod (date now + 6) 7) at 1 by lia.
    replace (Z.of_nat ti + (7 * ((date now + 6) / 7) + (date now + 6) mod 7
                            - (date now + 6) mod 7))
      with (Z.of_nat ti + ((date now + 6) / 7) * 7) by lia.
    rewrite Z.mod_add by lia. apply Z.mod_small. lia. }
  split; [done|].
  assert (Hcases : (k = k0 ∧ ((k0 =? 0) && time_ge (tod now) t) = false) ∨
                   (k = 7 ∧ k0 = 0 ∧ time_ge (tod now) t = true)).
  { subst k. destruct ((k0 =? 0) && time_ge (tod now) t) eqn:Hc; [right|by left].
    apply andb_true_iff in Hc as [Hz Hge]. apply Z.eqb_eq in Hz. done. }
  split; [destruct Hcases as [[-> _]|[-> _]]; lia|].
  split; [done|]. split.
  - unfold strftime_A_lower, weekday. cbn [date combine add_days].
    by rewrite Hk, Nat2Z.id, Hnth.
  - unfold time_ge in Hcases. split; intros Hkv.
    + destruct Hcases as [[Hkk Hc]|[Hkk _]]; [|lia].
      apply andb_false_iff in Hc as [Hz|Hge].
      * apply Z.eqb_neq in Hz. lia.
      * by apply Z.leb_gt in Hge.
    + destruct Hcases as [[Hkk _]|(_ & _ & Hge)]; [lia|]. by apply Z.leb_le in Hge.
Qed.

(** X5.  Whatever the settings, a datetime returned by
    [_calculate_next_upload] is strictly after [now], at most seven days
    ahead, on a weekday of [upload_days], and at the time [upload_time]
    parses to. *)
Theorem calculate_next_upload_within_week now s d :
  _calculate_next_upload now s = Some d →
  dt_lt now d ∧ date now ≤ date d ≤ date now + 7 ∧
  strftime_A_lower d ∈ default [] (s_upload_days s) ∧
  strptime_HM (default "09:00" (s_upload_time s)) = Some (tod d).
Proof.
  intros H. destruct (calculate_next_upload_shape now s d H)
    as (k & t & -> & Hk & Ht & Hin & H0 & H7).
  cbn [date tod combine add_days]. split; [|split; [lia|done]].
  destruct (Z.eq_dec k 0) as [->|Hne].
  - apply dt_lt_same_day; simpl; [lia | by apply H0].
  - apply dt_lt_later_day. simpl. lia.
Qed.

Lemma calculate_next_upload_within_week_witness :
  dt_lt monday_8am (mk_datetime 738888 (mk_time 9 0 0 0)) ∧
  date monday_8am ≤ 738888 ≤ date monday_8am + 7 ∧
  strftime_A_lower (mk_datetime 738888 (mk_time 9 0 0 0))
    ∈ default [] (s_upload_days mon_wed_9am) ∧
  strptime_HM (default "09:00" (s_upload_time mon_wed_9am)) = Some (mk_time 9 0 0 0).
Proof.
  exact (calculate_next_upload_within_week monday_8am mon_wed_9am
           (mk_datetime 738888 (mk_time 9 0 0 0)) eq_refl).
Defined.

(** X6.  With a single upload day the method is exact: it returns the
    earliest occurrence of that weekday at the upload time that lies
    strictly after [now]. *)
Theorem calculate_next_upload_single_day now s day t :
  s_upload_days s = Some [day] → day ∈ days_of_week →
  strptime_HM (default "09:00" (s_upload_time s)) = Some t →
  ∃ d, _calculate_next_upload now s = Some d ∧
       earliest_future_occurrence [day] t now d.
Proof.
  intros Hdays Hday Ht.
  destruct (calculate_next_upload_future_occurrence now s [day] t Hdays)
    as (d & Hd & Hocc & Hlt); [done | by apply Forall_singleton | done |].
  exists d. split; [done|]. split; [done|]. split; [done|].
  intros d' [Hin' Ht'] Hnow' Hless.
  destruct (calculate_next_upload_shape now s d Hd)
    as (k & t0 & -> & Hk & Ht0 & Hin & H0 & H7).
  rewrite Ht in Ht0. injection Ht0 as <-.
  rewrite Hdays in Hin. cbn [default] in Hin.
  apply list_elem_of_singleton in Hin, Hin'.
  assert (Hwd : weekday d' = weekday (combine (add_days now k) t))
    by (apply strftime_weekday; congruence).
  unfold weekday in Hwd. cbn [date combine add_days] in Hwd.
  unfold dt_lt, dt_ltb in Hnow', Hless.
  cbn [date tod combine add_days] in Hless.
  rewrite Ht' in Hnow', Hless.
  apply orb_true_iff in Hnow', Hless.
  assert (Hdate : date d' < date now + k).
  { destruct Hless as [H|H]; [by apply Z.ltb_lt in H|].
    apply andb_true_iff in H as [_ H]. apply Z.ltb_lt in H. lia. }
  assert (Hge : date now ≤ date d').
  { destruct Hnow' as [H|H]; [apply Z.ltb_lt in H; lia|].
    apply andb_true_iff in H as [H _]. apply Z.eqb_eq in H. lia. }
  assert (Hsame : date d' = date now ∧ k = 7).
  { revert Hwd. Z.to_euclidean_division_equations. lia. }
  destruct Hsame as [Hsame ->].
  destruct Hnow' as [H|H]; [apply Z.ltb_lt in H; lia|].
  apply andb_true_iff in H as [_ H]. apply Z.ltb_lt in H.
  specialize (H7 eq_refl). lia.
Qed.

Lemma calculate_next_upload_single_day_witness :
  ∃ d, _calculate_next_upload monday_8am
         (mk_settings None (Some "tech") None (Some ["monday"]) (Some "07:30"))
       = Some d ∧
       earliest_future_occurrence ["monday"] (mk_time 7 30 0 0) monday_8am d.
Proof.
  apply (calculate_next_upload_single_day monday_8am
           (mk_settings None (Some "tech") None (Some ["monday"]) (Some "07:30"))
           "monday" (mk_time 7 30 0 0)); [reflexivity | left | reflexivity].
Defined.



End AutomationFacts.

Module SubscriptionFacts.
Import Py Datetime Subscription PyFacts.



(** [check_video_limit] as one expression over the stores. *)
Lemma check_video_limit_run current_month uid w :
  check_video_limit current_month uid w
    = (Return
         match subscriptions w !! uid with
         | None => false
         | Some s =>
             match get_tier_info (tier s) with
             | None => false
             | Some tier_info =>
                 (video_limit tier_info =? -1)
                 || (videos_created_in w uid current_month <? video_limit tier_info)
             end
         end, w).
Proof.
  unfold check_video_limit, get_subscription, load_subscriptions, get_usage_metrics,
    load_usage, videos_created_in, bind, get, ret. simpl.
  destruct (subscriptions w !! uid) as [s|]; simpl; [|done].
  destruct (get_tier_info (tier s)) as [ti|]; simpl; [|done].
  destruct (video_limit ti =? -1); simpl; [done|].
  destruct (usage w !! uid) as [months|]; [destruct (months !! current_month)|]; done.
Qed.

(** C8.  [check_video_limit] answers [False] without a stored
    subscription or on an unknown tier, [True] on a tier whose limit is
    -1 whatever the usage, and otherwise [True] exactly when the
    current-month [videos_created] (0 without a usage record) is strictly
    below the tier's limit; it never raises and writes nothing. *)
Theorem check_video_limit_cases current_month uid w :
  world (check_video_limit current_month uid w) = w ∧
  (subscriptions w !! uid = None →
     result (check_video_limit current_month uid w) = Return false) ∧
  (∀ s, subscriptions w !! uid = Some s → get_tier_info (tier s) = None →
     result (check_video_limit current_month uid w) = Return false) ∧
  (∀ s tier_info, subscriptions w !! uid = Some s →
     get_tier_info (tier s) = Some tier_info → video_limit tier_info = -1 →
     result (check_video_limit current_month uid w) = Return true) ∧
  (∀ s tier_info, subscriptions w !! uid = Some s →
     get_tier_info (tier s) = Some tier_info → video_limit tier_info ≠ -1 →
     ∃ b, result (check_video_limit current_month uid w) = Return b ∧
          (b = true ↔ videos_created_in w uid current_month < video_limit tier_info)).
Proof.
  rewrite check_video_limit_run. unfold world, result. simpl.
  split; [done|]. split; [by intros ->|]. split; [|split].
  - intros s -> Hti. by rewrite Hti.
  - intros s ti -> Hti Hlim. rewrite Hti, Hlim. done.
  - intros s ti -> Hti Hlim. rewrite Hti.
    eexists. split; [reflexivity|].
    rewrite orb_true_iff, Z.eqb_eq, Z.ltb_lt.
    split; [intros [Heq|Hlt]; [by destruct Hlim | exact Hlt] | by right].
Qed.

Lemma check_video_limit_cases_witness :
  result (check_video_limit "2024-01" "u2" two_users) = Return false ∧
  result (check_video_limit "2024-01" "u1" two_users) = Return true ∧
  result (check_video_limit "2024-01" "u3" two_users) = Return false.
Proof.
  split; [|split].
  - destruct (check_video_limit_cases "2024-01" "u2" two_users)
      as (_ & _ & _ & _ & H).
    destruct (H free_sub (mk_tier "Free" 0 0 3
                ["Basic video creation"; "YouTube upload"; "Email support"]
                1 false false false)) as (b & Hb & Hiff);
      [reflexivity | reflexivity | discriminate |].
    rewrite Hb. destruct b; [|reflexivity].
    exfalso. assert (Hlt : videos_created_in two_users "u2" "2024-01" < 3)
      by (by apply Hiff).
    vm_compute in Hlt. discriminate.
  - reflexivity.
  - destruct (check_video_limit_cases "2024-01" "u3" two_users) as (_ & H & _).
    apply H. reflexivity.
Defined.







(** *** Further facts about the manager *)

Lemma check_subscription_status_missing now billed_at token_hex uid w :
  subscriptions w !! uid = None →
  check_subscription_status now billed_at token_hex uid w = (Return "no_subscription", w).
Proof.
  intros Hs. unfold check_subscription_status, get_subscription, load_subscriptions,
    bind, get, ret. cbv beta iota. by rewrite Hs.
Qed.

Lemma check_status_other_run now billed_at token_hex uid s w :
  subscriptions w !! uid = Some s →
  status s ≠ "trial" → status s ≠ "active" →
  check_subscription_status now billed_at token_hex uid w = (Return (status s), w).
Proof.
  intros Hs Ht Ha.
  unfold check_subscription_status, get_subscription, load_subscriptions,
    bind, get, ret. cbv beta iota. rewrite Hs. cbv beta iota.
  destruct (String.eqb_spec (status s) "trial") as [|_]; [done|].
  destruct (String.eqb_spec (status s) "active") as [|_]; [done|].
  reflexivity.
Qed.



(** X7.  Outside the states "trial" and "active" the status check is a
    pure read: it returns the stored status and writes nothing, so an
    expired or cancelled subscription is never renewed, billed or changed
    by it, whatever its dates and its [auto_renew] flag. *)
Theorem check_subscription_status_terminal now billed_at token_hex uid s w :
  subscriptions w !! uid = Some s →
  status s ≠ "trial" → status s ≠ "active" →
  check_subscription_status now billed_at token_hex uid w = (Return (status s), w).
Proof. apply check_status_other_run. Qed.

Lemma check_subscription_status_terminal_witness :
  check_subscription_status jan_1 jan_1 "00ff" "u9"
    (mk_store {[ "u9" := with_status "expired" gold_sub ]} ∅ ∅)
  = (Return "expired", mk_store {[ "u9" := with_status "expired" gold_sub ]} ∅ ∅).
Proof.
  apply (check_subscription_status_terminal jan_1 jan_1 "00ff" "u9"
           (with_status "expired" gold_sub)); [reflexivity | discriminate | discriminate].
Defined.












(** [update_usage_metrics] in terms of the record it reads and writes. *)
Lemma update_usage_metrics_run month uid metric_type value w :
  match bump metric_type value
          (default (empty_usage uid month) (usage_record w uid month)) with
  | None => update_usage_metrics month uid metric_type value w = UsageTypeError
  | Some r' =>
      ∃ w', update_usage_metrics month uid metric_type value w = UsageSaved w' ∧
            usage_record w' uid month = Some r' ∧
            subscriptions w' = subscriptions w ∧ billing w' = billing w ∧
            ∀ u m, u ≠ uid ∨ m ≠ month → usage_record w' u m = usage_record w u m
  end.
Proof.
  unfold update_usage_metrics, usage_record.
  destruct (usage w !! uid) as [months|] eqn:Hu.
  - rewrite Hu. cbn [default from_option id].
    destruct (months !! month) as [r|] eqn:Hm.
    + rewrite Hm. cbn [default from_option id].
      destruct (bump metric_type value r) as [r'|]; [|done].
      eexists. split; [reflexivity|]. cbn [usage subscriptions billing].
      rewrite lookup_insert_eq, lookup_insert_eq.
      split; [done|]. split; [done|]. split; [done|].
      intros u m [Hne|Hne].
      * by rewrite lookup_insert_ne.
      * destruct (decide (u = uid)) as [->|Hu'].
        -- by rewrite lookup_insert_eq, Hu, lookup_insert_ne.
        -- by rewrite lookup_insert_ne.
    + rewrite lookup_insert_eq. cbn [default from_option id].
      destruct (bump metric_type value (empty_usage uid month)) as [r'|]; [|done].
      eexists. split; [reflexivity|]. cbn [usage subscriptions billing].
      rewrite lookup_insert_eq, lookup_insert_eq.
      split; [done|]. split; [done|]. split; [done|].
      intros u m [Hne|Hne].
      * by rewrite lookup_insert_ne.
      * destruct (decide (u = uid)) as [->|Hu'].
        -- by rewrite lookup_insert_eq, Hu, !lookup_insert_ne.
        -- by rewrite lookup_insert_ne.
  - rewrite lookup_insert_eq. cbn [default from_option id].
    rewrite lookup_empty, lookup_insert_eq. cbn [default from_option id].
    destruct (bump metric_type value (empty_usage uid month)) as [r'|]; [|done].
    eexists. split; [reflexivity|]. cbn [usage subscriptions billing].
    rewrite lookup_insert_eq, lookup_insert_eq.
    split; [done|]. split; [done|]. split; [done|].
    intros u m [Hne|Hne].
    + by rewrite !lookup_insert_ne.
    + destruct (decide (u = uid)) as [->|Hu'].
      * rewrite lookup_insert_eq, Hu, !lookup_insert_ne by done. apply lookup_empty.
      * by rewrite !lookup_insert_ne.
Qed.






End SubscriptionFacts.

Module BrainFacts.
Import Py Brain.

(** The chain returns the intent of the first matching group of the
    table, and [general_chat] when [find] comes back empty. *)
Lemma fallback_intent_find message :
  intent (fallback_intent message)
    = default "general_chat"
        (fst <$> find (group_matches (lower message)) keyword_groups).
Proof.
  unfold fallback_intent, keyword_groups, find, group_matches. cbn [snd fst].
  destruct (any_in ["create"; "make"; "generate"; "new video"] (lower message));
    [reflexivity|].
  destruct (any_in ["script"; "modify"; "change"; "edit"] (lower message));
    [reflexivity|].
  destruct (any_in ["status"; "progress"; "how"] (lower message)); [reflexivity|].
  destruct (any_in ["upload"; "youtube"; "publish"] (lower message)); reflexivity.
Qed.

Lemma find_first {A} (f : A → bool) pre x post :
  Forall (λ y, f y = false) pre → f x = true →
  find f (pre ++ x :: post)%list = Some x.
Proof.
  induction 1 as [|y pre Hy _ IH]; intros Hx; simpl.
  - by rewrite Hx.
  - rewrite Hy. by apply IH.
Qed.

Lemma find_nothing {A} (f : A → bool) l :
  Forall (λ y, f y = false) l → find f l = None.
Proof. induction 1 as [|y l Hy _ IH]; simpl; [done|]. by rewrite Hy. Qed.

Lemma analyze_intent_failed json_loads llm message :
  llm_failed llm → analyze_intent json_loads llm message = fallback_intent message.
Proof.
  destruct llm as [e|[response|]]; simpl; [done| |done].
  intros H. unfold analyze_intent. by rewrite H.
Qed.

(** C3.  When the LLM call raises or returns a falsy value,
    [analyze_intent] returns the intent of the first keyword group, in
    the order create_video, modify_script, get_status, upload_video, one
    of whose keywords is a substring of the lowercased message (so the
    earliest of several matching groups wins), and [general_chat] with
    confidence 0.5 when no group matches. *)
Theorem analyze_intent_fallback_first_group json_loads llm message :
  llm_failed llm →
  (∀ pre g post,
     keyword_groups = (pre ++ g :: post)%list →
     Forall (λ h, group_matches (lower message) h = false) pre →
     group_matches (lower message) g = true →
     intent (analyze_intent json_loads llm message) = fst g) ∧
  (Forall (λ h, group_matches (lower message) h = false) keyword_groups →
     intent (analyze_intent json_loads llm message) = "general_chat" ∧
     confidence (analyze_intent json_loads llm message) = Tenths 5).
Proof.
  intros Hfail. rewrite (analyze_intent_failed _ _ _ Hfail). split.
  - intros pre g post Hsplit Hpre Hg.
    rewrite fallback_intent_find, Hsplit, (find_first _ _ _ _ Hpre Hg). done.
  - intros Hnone. split.
    + by rewrite fallback_intent_find, (find_nothing _ _ Hnone).
    + unfold keyword_groups, group_matches in Hnone. cbn [snd] in Hnone.
      repeat match goal with
             | H : Forall _ (_ :: _) |- _ => apply Forall_cons_1 in H as [? H]
             end.
      unfold fallback_intent.
      repeat match goal with
             | H : any_in _ _ = false |- _ => cbn [snd] in H; rewrite H; clear H
             end.
      reflexivity.
Qed.

Lemma analyze_intent_fallback_first_group_witness :
  llm_failed (LLMReturns (Some "")) ∧
  intent (analyze_intent (λ _, None) (LLMReturns (Some ""))
            "Please UPLOAD it, then make another") = "create_video" ∧
  intent (analyze_intent (λ _, None) (LLMReturns (Some "")) "Good morning")
    = "general_chat".
Proof.
  split; [reflexivity|]. split.
  - apply (proj1 (analyze_intent_fallback_first_group (λ _, None)
                    (LLMReturns (Some ""))
                    "Please UPLOAD it, then make another" eq_refl)
             [] ("create_video", ["create"; "make"; "generate"; "new video"])
             (tail keyword_groups)); [reflexivity | constructor | reflexivity].
  - refine (proj1 (proj2 (analyze_intent_fallback_first_group (λ _, None)
                            (LLMReturns (Some "")) "Good morning" eq_refl) _)).
    repeat constructor.
Defined.

(** *** Letter case *)

Lemma lower_char_idem c : lower_char (lower_char c) = lower_char c.
Proof. destruct c as [[] [] [] [] [] [] [] []]; reflexivity. Qed.

Lemma lower_idem s : lower (lower s) = lower s.
Proof.
  induction s as [|c s IH]; [done|]. cbn [lower]. by rewrite lower_char_idem, IH.
Qed.

(** X25.  The keyword fallback ignores letter case: two messages that
    differ only in the case of their letters get the same answer, and a
    message and its lowercased form in particular. *)
Theorem fallback_ignores_case json_loads llm message message' :
  llm_failed llm → lower message = lower message' →
  analyze_intent json_loads llm message = analyze_intent json_loads llm message' ∧
  analyze_intent json_loads llm (lower message) = analyze_intent json_loads llm message.
Proof.
  intros Hfail Heq. rewrite !(analyze_intent_failed _ _ _ Hfail).
  unfold fallback_intent. by rewrite lower_idem, Heq.
Qed.

Lemma fallback_ignores_case_witness :
  analyze_intent (λ _, None) (LLMRaises (ValueError "timeout")) "UPLOAD IT"
    = analyze_intent (λ _, None) (LLMRaises (ValueError "timeout")) "Upload it".
Proof.
  apply (fallback_ignores_case (λ _, None) (LLMRaises (ValueError "timeout"))
           "UPLOAD IT" "Upload it" I eq_refl).
Defined.

End BrainFacts.

Module SEOFacts.
Import Py SEO.

Lemma length_append (a b : string) :
  String.length (a +:+ b) = (String.length a + String.length b)%nat.
Proof. induction a as [|c a IH]; simpl; [done|]. by rewrite IH. Qed.

Lemma length_substring_le (n : nat) (s : string) :
  (String.length (String.substring 0 n s) ≤ n)%nat.
Proof.
  revert s. induction n as [|n IH]; intros [|c s]; simpl; try lia.
  specialize (IH s). lia.
Qed.

Lemma first_enhanced_le title words t :
  first_enhanced title words = Some t → (String.length t ≤ 60)%nat.
Proof.
  induction words as [|w words IH]; cbn [first_enhanced]; [done|].
  destruct (Nat.leb_spec (String.length (w +:+ " " +:+ title +:+ " 2024")) 60)
    as [Hle|_]; [|exact IH].
  by intros [= <-].
Qed.

(** C10.  Whatever the title and topic, the fallback
    [_optimize_title_basic] returns at most 60 characters. *)
Theorem optimize_title_basic_le_60 title topic :
  (String.length (_optimize_title_basic title topic) ≤ 60)%nat.
Proof.
  unfold _optimize_title_basic.
  destruct (if (String.length title <? 30)%nat
            then first_enhanced title power_words else None) as [t|] eqn:Hloop.
  - destruct (String.length title <? 30)%nat; [|done].
    by eapply first_enhanced_le.
  - destruct (negb (contains "2024" title) && (String.length title <? 55)%nat)
      eqn:Hc.
    + apply andb_true_iff in Hc as [_ Hlen]. apply Nat.ltb_lt in Hlen.
      rewrite length_append. simpl. lia.
    + apply length_substring_le.
Qed.

(** A title under 30 characters always leaves through the loop, with
    the first power word. *)
Lemma optimize_title_basic_short title topic :
  (String.length title < 30)%nat →
  _optimize_title_basic title topic = "Ultimate " +:+ title +:+ " 2024".
Proof.
  intros Hlen. unfold _optimize_title_basic.
  apply Nat.ltb_lt in Hlen as Hb. rewrite Hb.
  unfold power_words. cbn [first_enhanced].
  destruct (Nat.leb_spec (String.length ("Ultimate" +:+ " " +:+ title +:+ " 2024")) 60)
    as [_|Hgt]; [reflexivity|].
  rewrite !length_append in Hgt. simpl in Hgt. lia.
Qed.

(** *** Scoring and keywords *)

(** X23.  The SEO score always lies between 15 and 100 and is a multiple
    of 5: the two keyword-count tests cannot both fail, so even empty
    metadata scores 15, and the seven awards add up to exactly 100, so the
    final [min(score, 100)] never cuts anything off. *)
Theorem calculate_seo_score_range title description keywords :
  15 ≤ calculate_seo_score title description keywords ≤ 100 ∧
  (calculate_seo_score title description keywords) mod 5 = 0.
Proof.
  unfold calculate_seo_score.
  destruct ((30 <=? String.length title)%nat && (String.length title <=? 60)%nat);
    destruct (existsb _ _);
    destruct (200 <=? String.length description)%nat;
    destruct (contains "subscribe" (lower description));
    destruct (contains "like" (lower description)
              && contains "share" (lower description));
    destruct (Nat.leb_spec 10 (length keywords));
    destruct (Nat.leb_spec (length keywords) 15);
    cbv beta iota zeta; try lia; (split; [lia | reflexivity]).
Qed.

Lemma fromkeys_from_app a : ∀ seen b,
  ∃ seen', fromkeys_from seen (a ++ b)%list
           = (fromkeys_from seen a ++ fromkeys_from seen' b)%list.
Proof.
  induction a as [|x a IH]; intros seen b; cbn [app fromkeys_from].
  - by exists seen.
  - destruct (bool_decide (x ∈ seen)).
    + apply IH.
    + destruct (IH (x :: seen) b) as [seen' ->]. by exists seen'.
Qed.

(** X24.  The fallback keyword list does not depend on the topic: the
    power and base keywords alone hold 21 distinct entries, so the first
    20 of the de-duplicated list are always the fourteen power keywords
    followed by youtube, video, content, creator, shorts and 2024, and no
    topic-specific keyword is ever returned. *)
Theorem generate_enhanced_keywords_constant topic :
  _generate_enhanced_keywords topic
    = ["best"; "ultimate"; "complete"; "amazing"; "incredible"; "viral"; "trending";
       "top"; "how to"; "tips"; "tricks"; "secrets"; "guide"; "tutorial"; "youtube";
       "video"; "content"; "creator"; "shorts"; "2024"].
Proof.
  unfold _generate_enhanced_keywords, fromkeys.
  rewrite (app_assoc power_keywords base_keywords).
  destruct (fromkeys_from_app (power_keywords ++ base_keywords)%list [] 
              (topic_keywords (lower topic)
               ++ (filter (λ word, (2 < String.length word)%nat) (str_split topic)
                   ≫= λ word, [word; word +:+ " tips"; word +:+ " tutorial";
                               "best " +:+ word; "how to " +:+ word]))%list)
    as [seen' ->].
  rewrite take_app_le; [reflexivity|].
  vm_compute. lia.
Qed.

Lemma substring_all n s : (String.length s ≤ n)%nat → String.substring 0 n s = s.
Proof.
  revert s. induction n as [|n IH]; intros [|c s] Hlen; simpl in *; try done; try lia.
  rewrite IH by lia. done.
Qed.

Lemma length_substring_full n s :
  (n ≤ String.length s)%nat → String.length (String.substring 0 n s) = n.
Proof.
  revert s. induction n as [|n IH]; intros [|c s] Hlen; simpl in *; try done; try lia.
  rewrite IH by lia. done.
Qed.

(** X27.  What the title fallback returns, by length of the title:
    under 30 characters always "Ultimate <title> 2024" (the first power
    word always fits, the other nine are never used); from 30 to 54
    characters without "2024" the title with " 2024" appended; from 30 to
    60 characters with "2024" in it, or with 55 or more characters, the
    title unchanged; above 60 characters its first 60 characters. *)
Theorem optimize_title_basic_cases title topic :
  ((String.length title < 30)%nat →
     _optimize_title_basic title topic = "Ultimate " +:+ title +:+ " 2024") ∧
  ((30 ≤ String.length title < 55)%nat → contains "2024" title = false →
     _optimize_title_basic title topic = title +:+ " 2024") ∧
  ((30 ≤ String.length title ≤ 60)%nat →
     contains "2024" title = true ∨ (55 ≤ String.length title)%nat →
     _optimize_title_basic title topic = title) ∧
  ((60 < String.length title)%nat →
     _optimize_title_basic title topic = String.substring 0 60 title ∧
     String.length (_optimize_title_basic title topic) = 60%nat).
Proof.
  split; [apply optimize_title_basic_short|].
  assert (Hlong : (30 ≤ String.length title)%nat →
    _optimize_title_basic title topic
      = if negb (contains "2024" title) && (String.length title <? 55)%nat
        then title +:+ " 2024" else String.substring 0 60 title).
  { intros Hlen. unfold _optimize_title_basic.
    destruct (Nat.ltb_spec (String.length title) 30); [lia | done]. }
  split; [|split].
  - intros [Hlo Hhi] Hc. rewrite Hlong, Hc by done.
    apply Nat.ltb_lt in Hhi. by rewrite Hhi.
  - intros [Hlo Hhi] Hc. rewrite Hlong by done.
    assert (Hb : negb (contains "2024" title) && (String.length title <? 55)%nat = false).
    { destruct Hc as [->|Hc]; [done|].
      apply Nat.ltb_ge in Hc. rewrite Hc. apply andb_false_r. }
    rewrite Hb. by apply substring_all.
  - intros Hlen. rewrite Hlong by lia.
    assert (Hb : negb (contains "2024" title) && (String.length title <? 55)%nat = false).
    { assert (Hc : (String.length title <? 55)%nat = false) by (apply Nat.ltb_ge; lia).
      rewrite Hc. apply andb_false_r. }
    rewrite Hb. split; [done|]. apply length_substring_full. lia.
Qed.

Lemma optimize_title_basic_cases_witness :
  _optimize_title_basic "Sourdough" "baking" = "Ultimate Sourdough 2024" ∧
  _optimize_title_basic "Sourdough starter from scratch in 2024" "baking"
    = "Sourdough starter from scratch in 2024".
Proof.
  destruct (optimize_title_basic_cases "Sourdough" "baking") as [Hshort _].
  destruct (optimize_title_basic_cases "Sourdough starter from scratch in 2024" "baking")
    as (_ & _ & Hkeep & _).
  split.
  - apply Hshort. simpl. lia.
  - apply Hkeep; [simpl; lia | by left].
Defined.

End SEOFacts.

Module VideoFacts.
Import Py Video PyFacts.



Lemma stages_of_app l1 l2 :
  stages_of (l1 ++ l2)%list = (stages_of l1 ++ stages_of l2)%list.
Proof. apply omap_app. Qed.

Lemma progress_of_app vid l1 l2 :
  progress_of vid (l1 ++ l2)%list = (progress_of vid l1 ++ progress_of vid l2)%list.
Proof. apply omap_app. Qed.

Lemma emits_refl vid w : emits vid w w [] [].
Proof. exists []. by rewrite app_nil_r. Qed.

Lemma emits_trans vid w1 w2 w3 s1 s2 p1 p2 :
  emits vid w1 w2 s1 p1 → emits vid w2 w3 s2 p2 →
  emits vid w1 w3 (s1 ++ s2)%list (p1 ++ p2)%list.
Proof.
  intros (t1 & Hl1 & Hs1 & Hp1) (t2 & Hl2 & Hs2 & Hp2).
  exists (t1 ++ t2)%list. rewrite Hl2, Hl1, <- app_assoc.
  rewrite stages_of_app, progress_of_app, Hs1, Hs2, Hp1, Hp2. done.
Qed.

Section Run.
Variable videos_dir : string.
Variable utcnow : nat → string.
Variable write_error : string → option exn.
Variable vid : string.

Local Abbreviation run_stage := (run_stage videos_dir write_error).
Local Abbreviation checkpoint := (checkpoint utcnow).
Local Abbreviation run_steps := (run_steps videos_dir utcnow write_error).
Local Abbreviation process_video := (process_video videos_dir utcnow write_error).
Local Abbreviation stage_path := (stage_path videos_dir).
Local Abbreviation step_clear := (step_clear videos_dir write_error vid).

(** The source's straight-line body is the replay of [steps]. *)
Lemma process_video_steps :
  process_video vid
    = try_except
        (videos <- load_videos ;;
         match videos !! vid with
         | None => ret tt
         | Some _ =>
             videos <- checkpoint vid
                         (λ v, with_progress 10 (with_status "processing" v)) videos ;;
             run_steps steps vid videos
         end)
        (λ e, mark_video_failed utcnow vid (str_of_exn e)).
Proof. reflexivity. Qed.

Lemma steps_keep : Forall (λ st, keeps (step_path st)) steps.
Proof. repeat constructor. Qed.

Lemma checkpoint_run f videos w vl :
  videos !! vid = Some vl →
  ∃ w' vl',
    checkpoint vid f videos w = (Return (videos_file w'), w') ∧
    videos_file w' !! vid = Some vl' ∧
    progress vl' = progress (f vl) ∧ status vl' = status (f vl) ∧
    emits vid w w' [] [progress (f vl)].
Proof.
  intros Hvl.
  unfold Video.checkpoint, utcnow_isoformat, save_videos, bind, get, put, modify, ret.
  cbv beta iota.
  eexists (mk_world _ _ _ _), _. split; [reflexivity|]. cbn [videos_file].
  split; [by rewrite lookup_alter_eq, Hvl|].
  split; [done|]. split; [done|].
  eexists. split; [reflexivity|]. split; [reflexivity|].
  unfold progress_of. simpl. by rewrite lookup_alter_eq, Hvl.
Qed.

Lemma run_stage_ok s set_path w v :
  videos_file w !! vid = Some v → write_error (stage_path s vid) = None →
  ∃ w', run_stage s set_path vid w = (Return tt, w') ∧
        videos_file w' !! vid = Some (set_path (Some (stage_path s vid)) v) ∧
        log w' = (log w ++ [Entered s; Saved (videos_file w')])%list.
Proof.
  intros Hv Hw. unfold Video.run_stage, bind, enter, load_videos, modify, get, ret.
  simpl. rewrite Hv. unfold write_file. rewrite Hw.
  unfold save_videos, modify. simpl.
  eexists. split; [reflexivity|]. simpl. split; [by rewrite lookup_insert_eq|].
  by rewrite <- app_assoc.
Qed.

Lemma run_stage_raises s set_path w v e :
  videos_file w !! vid = Some v → write_error (stage_path s vid) = Some e →
  run_stage s set_path vid w
    = (Raise e,
       mk_world (videos_file w) (files w) (ticks w) (log w ++ [Entered s])%list).
Proof.
  intros Hv Hw. unfold Video.run_stage, bind, enter, load_videos, modify, get, ret.
  simpl. rewrite Hv. unfold write_file. by rewrite Hw.
Qed.

Lemma mark_video_failed_run msg w v :
  videos_file w !! vid = Some v →
  ∃ w' v', mark_video_failed utcnow vid msg w = (Return tt, w') ∧
           videos_file w' !! vid = Some v' ∧
           status v' = "failed" ∧ error_message v' = Some msg ∧
           ∃ trace, log w' = (log w ++ trace)%list ∧ stages_of trace = [].
Proof.
  intros Hv.
  unfold mark_video_failed, utcnow_isoformat, load_videos, save_videos, bind, get,
    put, modify, ret.
  cbv beta iota. rewrite Hv. cbv beta iota.
  eexists (mk_world _ _ _ _), _. split; [reflexivity|]. cbn [videos_file log].
  split; [by rewrite lookup_insert_eq|]. split; [done|]. split; [done|].
  by eexists.
Qed.

(** Replaying clear steps: every stage is entered once, in order, and
    the file's record and the local dict's record agree on progress
    and status after every checkpoint. *)
Lemma run_steps_ok l : ∀ videos w v vl,
  Forall step_clear l →
  videos_file w !! vid = Some v → videos !! vid = Some vl →
  progress v = progress vl → status v = status vl →
  ∃ w' v',
    run_steps l vid videos w = (Return tt, w') ∧
    videos_file w' !! vid = Some v' ∧
    progress v' = progress_after l (progress v) ∧
    status v' = status_after l (status v) ∧
    emits vid w w' (step_stage <$> l)
          (expected_progress (progress v) (step_progress <$> l)).
Proof.
  induction l as [|st rest IH]; intros videos w v vl Hclear Hv Hvl Hp Hs.
  - exists w, v. repeat split; try done. apply emits_refl.
  - apply Forall_cons_1 in Hclear as [[Hwrite Hkeep] Hrest].
    destruct (run_stage_ok (step_stage st) (step_path st) w v Hv Hwrite)
      as (w1 & Hrun1 & Hv1 & Hlog1).
    destruct (checkpoint_run (step_update st) videos w1 vl Hvl)
      as (w2 & vl2 & Hrun2 & Hv2 & Hp2 & Hs2 & Hemit2).
    destruct (IH (videos_file w2) w2 vl2 vl2 Hrest Hv2 Hv2 eq_refl eq_refl)
      as (w3 & v3 & Hrun3 & Hv3 & Hp3 & Hs3 & Hemit3).
    exists w3, v3. split.
    { cbn [Video.run_steps].
      erewrite run_bind by exact Hrun1. erewrite run_bind by exact Hrun2.
      exact Hrun3. }
    split; [exact Hv3|].
    assert (Hp2' : progress vl2 = step_progress st) by (by rewrite Hp2).
    assert (Hs2' : status vl2 = default (status v) (step_status st)).
    { rewrite Hs2, Hs. unfold step_update. by destruct (step_status st). }
    split; [by rewrite Hp3, Hp2'|]. split; [by rewrite Hs3, Hs2'|].
    assert (Hemit1 : emits vid w w1 [step_stage st] [progress v]).
    { eexists. split; [exact Hlog1|]. split; [reflexivity|].
      unfold progress_of. simpl. rewrite Hv1. simpl.
      by rewrite (proj1 (Hkeep _ _)). }
    rewrite Hp2' in Hemit3.
    change (progress (step_update st vl)) with (step_progress st) in Hemit2.
    exact (emits_trans _ _ _ _ _ _ _ _ Hemit1
             (emits_trans _ _ _ _ _ _ _ _ Hemit2 Hemit3)).
Qed.

Lemma load_videos_run w : load_videos w = (Return (videos_file w), w).
Proof. reflexivity. Qed.

Lemma pipeline_steps : pipeline = step_stage <$> steps.
Proof. reflexivity. Qed.

End Run.

(** A side effect of saving the dict loaded at the start: the path keys
    the stages persist are overwritten by the next checkpoint, so the
    completed record carries none of them. *)
Example process_video_drops_stage_paths :
  (videos_file (world (process_video "videos" clock no_write_error "video_01"
                         sample_world)) !! "video_01")
    ≫= local_path = None.
Proof. vm_compute. reflexivity. Qed.

(** *** Further facts about the manager *)

Section Replay.
Variable videos_dir : string.
Variable utcnow : nat → string.
Variable write_error : string → option exn.
Variable vid : string.

Local Abbreviation run_stage := (run_stage videos_dir write_error).
Local Abbreviation checkpoint := (checkpoint utcnow).
Local Abbreviation run_steps := (run_steps videos_dir utcnow write_error).
Local Abbreviation process_video := (process_video videos_dir utcnow write_error).
Local Abbreviation stage_path := (stage_path videos_dir).
Local Abbreviation step_clear := (step_clear videos_dir write_error vid).

Lemma checkpoint_exact f videos w :
  checkpoint vid f videos w
    = (Return (alter (λ v, with_updated_at (utcnow (ticks w)) (f v)) vid videos),
       mk_world (alter (λ v, with_updated_at (utcnow (ticks w)) (f v)) vid videos)
                (files w) (S (ticks w))
                (log w ++ [Saved (alter (λ v, with_updated_at (utcnow (ticks w)) (f v))
                                    vid videos)])%list).
Proof. reflexivity. Qed.

Lemma run_stage_exact s set_path w v :
  videos_file w !! vid = Some v → write_error (stage_path s vid) = None →
  run_stage s set_path vid w
    = (Return tt,
       mk_world (<[vid := set_path (Some (stage_path s vid)) v]> (videos_file w))
                (files w ∪ {[stage_path s vid]}) (ticks w)
                ((log w ++ [Entered s])
                 ++ [Saved (<[vid := set_path (Some (stage_path s vid)) v]>
                              (videos_file w))])%list).
Proof.
  intros Hv Hw. unfold Video.run_stage, bind, enter, load_videos, modify, get, ret.
  simpl. rewrite Hv. unfold write_file. rewrite Hw. reflexivity.
Qed.


Lemma run_stage_returns s set_path w w1 :
  run_stage s set_path vid w = (Return tt, w1) → is_Some (videos_file w !! vid).
Proof.
  unfold Video.run_stage, bind, enter, load_videos, modify, get, ret. simpl.
  destruct (videos_file w !! vid) as [v|]; [by eexists | done].
Qed.

(** Replaying clear steps from a file that equals the local dict. *)
Lemma run_steps_exact l : ∀ w vl,
  Forall step_clear l → videos_file w !! vid = Some vl →
  ∃ w', run_steps l vid (videos_file w) w = (Return tt, w') ∧
        videos_file w' !! vid = Some (replay_record utcnow l (ticks w) vl) ∧
        (∀ k, k ≠ vid → videos_file w' !! k = videos_file w !! k) ∧
        ticks w' = (ticks w + length l)%nat ∧
        files w' = files w ∪ stage_files videos_dir l vid.
Proof.
  induction l as [|st rest IH]; intros w vl Hclear Hv.
  - exists w. split; [done|]. split; [done|]. split; [done|]. split; [simpl; lia|].
    unfold stage_files. simpl. by rewrite (right_id_L ∅ (∪)).
  - apply Forall_cons_1 in Hclear as [[Hwrite _] Hrest].
    pose proof (run_stage_exact (step_stage st) (step_path st) w vl Hv Hwrite) as Hrun1.
    set (w1 := mk_world _ _ _ _) in Hrun1.
    pose proof (checkpoint_exact (step_update st) (videos_file w) w1) as Hrun2.
    set (w2 := mk_world _ _ _ _) in Hrun2.
    assert (Hv2 : videos_file w2 !! vid
                  = Some (with_updated_at (utcnow (ticks w)) (step_update st vl))).
    { subst w2. cbn [videos_file]. rewrite lookup_alter_eq, Hv. reflexivity. }
    destruct (IH w2 _ Hrest Hv2) as (w3 & Hrun3 & Hv3 & Hfr3 & Ht3 & Hf3).
    exists w3. split.
    { cbn [Video.run_steps]. erewrite run_bind by exact Hrun1.
      erewrite run_bind by exact Hrun2. exact Hrun3. }
    split; [exact Hv3|]. split.
    { intros k Hk. rewrite Hfr3 by done. subst w2. cbn [videos_file].
      by rewrite lookup_alter_ne. }
    split; [rewrite Ht3; subst w2 w1; simpl; lia|].
    rewrite Hf3. subst w2 w1. unfold stage_files. cbn [files]. simpl.
    by rewrite (assoc_L (∪)).
Qed.



(** X15.  A run of [process_video] for an id that is not in the store
    does nothing at all: no write, no clock read, no stage. *)
Theorem process_video_unknown_id w :
  videos_file w !! vid = None → process_video vid w = (Return tt, w).
Proof.
  intros Hv. rewrite process_video_steps. unfold try_except.
  erewrite run_bind by apply load_videos_run. by rewrite Hv.
Qed.


Lemma steps_clear_all :
  (∀ s, write_error (stage_path s vid) = None) → Forall step_clear steps.
Proof.
  intros Hwrite. eapply Forall_impl; [apply steps_keep|].
  intros st Hk. split; [apply Hwrite | done].
Qed.

(** The whole successful run, as one equation on the final world. *)
Lemma process_video_success_run v w :
  videos_file w !! vid = Some v →
  (∀ s, write_error (stage_path s vid) = None) →
  ∃ w', process_video vid w = (Return tt, w') ∧
        videos_file w' !! vid
          = Some (with_updated_at (utcnow (5 + ticks w))
                    (with_progress 100 (with_status "completed" v))) ∧
        (∀ k, k ≠ vid → videos_file w' !! k = videos_file w !! k) ∧
        files w' = files w ∪ stage_files videos_dir steps vid ∧
        ticks w' = (6 + ticks w)%nat.
Proof.
  intros Hv Hwrite.
  pose proof (checkpoint_exact (λ v, with_progress 10 (with_status "processing" v))
                (videos_file w) w) as Hrun1.
  set (w1 := mk_world _ _ _ _) in Hrun1.
  assert (Hv1 : videos_file w1 !! vid
                = Some (with_updated_at (utcnow (ticks w))
                          (with_progress 10 (with_status "processing" v)))).
  { subst w1. cbn [videos_file]. by rewrite lookup_alter_eq, Hv. }
  destruct (run_steps_exact steps w1 _ (steps_clear_all Hwrite) Hv1)
    as (w2 & Hrun2 & Hv2 & Hfr2 & Ht2 & Hf2).
  exists w2. split.
  { rewrite process_video_steps. unfold try_except.
    erewrite run_bind by apply load_videos_run. rewrite Hv.
    erewrite run_bind by exact Hrun1.
    change (run_steps steps vid _ w1) with (run_steps steps vid (videos_file w1) w1).
    by rewrite Hrun2. }
  split.
  { rewrite Hv2. subst w1. cbn [ticks]. destruct v. reflexivity. }
  split.
  { intros k Hk. rewrite Hfr2 by done. subst w1. cbn [videos_file].
    by rewrite lookup_alter_ne. }
  split; [rewrite Hf2; by subst w1|].
  rewrite Ht2. subst w1. cbn [ticks]. simpl. lia.
Qed.

(** X17.  What a successful run leaves: the record loaded at the start
    with only status ("completed"), progress (100) and [updated_at]
    changed.  The paths the five stages saved into the file are
    overwritten by the checkpoints, so the completed record refers to none
    of the five files, all of which are on disk. *)
Theorem process_video_final_record v w :
  videos_file w !! vid = Some v →
  (∀ s, write_error (stage_path s vid) = None) →
  ∃ w' v',
    process_video vid w = (Return tt, w') ∧
    videos_file w' !! vid = Some v' ∧
    v' = with_updated_at (utcnow (5 + ticks w))
           (with_progress 100 (with_status "completed" v)) ∧
    local_path v' = local_path v ∧ thumbnail_path v' = thumbnail_path v ∧
    script_path v' = script_path v ∧ audio_path v' = audio_path v ∧
    video_path v' = video_path v ∧
    ∀ s, stage_path s vid ∈ files w'.
Proof.
  intros Hv Hwrite.
  destruct (process_video_success_run v w Hv Hwrite) as (w' & Hrun & Hv' & _ & Hf & _).
  eexists w', _. split; [exact Hrun|]. split; [exact Hv'|]. split; [done|].
  do 5 (split; [done|]).
  intros s. rewrite Hf. apply elem_of_union_r. unfold stage_files.
  apply elem_of_list_to_set. destruct s; cbn; repeat constructor.
Qed.

End Replay.

Lemma process_video_unknown_id_witness :
  process_video "videos" clock no_write_error "video_99" sample_world
    = (Return tt, sample_world).
Proof.
  apply (process_video_unknown_id "videos" clock no_write_error "video_99" sample_world).
  reflexivity.
Defined.


Lemma process_video_final_record_witness :
  ∃ w' v',
    process_video "videos" clock no_write_error "video_01" sample_world
      = (Return tt, w') ∧
    videos_file w' !! "video_01" = Some v' ∧
    v' = with_updated_at (clock (5 + ticks sample_world))
           (with_progress 100 (with_status "completed" sample_video)) ∧
    local_path v' = local_path sample_video ∧
    thumbnail_path v' = thumbnail_path sample_video ∧
    script_path v' = script_path sample_video ∧
    audio_path v' = audio_path sample_video ∧
    video_path v' = video_path sample_video ∧
    ∀ s, stage_path "videos" s "video_01" ∈ files w'.
Proof.
  apply (process_video_final_record "videos" clock no_write_error "video_01"
           sample_video sample_world); [reflexivity | intros s; reflexivity].
Defined.

Lemma create_video_request_run utcnow token_hex uid rq rt :
  let vid := generate_video_id token_hex in
  let now := utcnow (ticks (rt_world rt)) in
  let v := mk_video vid uid "pending" 0 now now (rq_title rq)
             (match rq_description rq with Some d => d | None => "" end)
             None None None None None None None None in
  let w := rt_world rt in
  create_video_request utcnow token_hex uid rq rt
    = (Return v,
       mk_runtime
         (mk_world (<[vid := v]> (videos_file w)) (files w) (S (ticks w))
                   (log w ++ [Saved (<[vid := v]> (videos_file w))])%list)
         (rt_tasks rt ++ [vid])%list).
Proof. reflexivity. Qed.








(** The fields the checkpoints of [l] leave alone, and the progress they set. *)
Lemma replay_record_fields utcnow l : ∀ tick v,
  progress (replay_record utcnow l tick v) = progress_after l (progress v) ∧
  local_path (replay_record utcnow l tick v) = local_path v ∧
  thumbnail_path (replay_record utcnow l tick v) = thumbnail_path v ∧
  script_path (replay_record utcnow l tick v) = script_path v ∧
  audio_path (replay_record utcnow l tick v) = audio_path v ∧
  video_path (replay_record utcnow l tick v) = video_path v.
Proof.
  induction l as [|st l IH]; intros tick v; [done|].
  cbn [replay_record progress_after fold_left].
  destruct (IH (S tick) (with_updated_at (utcnow tick) (step_update st v)))
    as (Hp & Hl & Ht & Hs & Ha & Hv).
  rewrite Hp, Hl, Ht, Hs, Ha, Hv. unfold step_update.
  by destruct (step_status st).
Qed.

End VideoFacts.

(** *** [process_video] as a task of the event loop *)

Module TasksFacts.
Import Py Video Tasks PyFacts VideoFacts.

Lemma alter_present {A} (f : A → A) (m : gmap string A) k v :
  m !! k = Some v → alter f k m = <[k := f v]> m.
Proof.
  intros Hv. apply map_eq. intros j. destruct (decide (j = k)) as [->|Hne].
  - by rewrite lookup_alter_eq, lookup_insert_eq, Hv.
  - by rewrite lookup_alter_ne, lookup_insert_ne.
Qed.

Section Alone.
Variable videos_dir : string.
Variable utcnow : nat → string.
Variable write_error : string → option exn.
Variable save_outcome : nat → write_outcome.
Variable vid : string.

Local Abbreviation save_videos := (save_videos save_outcome).
Local Abbreviation checkpoint := (checkpoint utcnow save_outcome).
Local Abbreviation mark_video_failed := (mark_video_failed utcnow save_outcome).
Local Abbreviation stage_after_sleep := (stage_after_sleep videos_dir write_error save_outcome).
Local Abbreviation begin := (begin utcnow save_outcome).
Local Abbreviation wake := (wake videos_dir utcnow write_error save_outcome).
Local Abbreviation guarded := (guarded utcnow save_outcome).
Local Abbreviation turn_of := (turn_of utcnow save_outcome).
Local Abbreviation resume := (resume videos_dir utcnow write_error save_outcome).
Local Abbreviation run_alone := (run_alone videos_dir utcnow write_error save_outcome).
Local Abbreviation run_from := (run_from videos_dir utcnow write_error save_outcome).
Local Abbreviation stage_path := (stage_path videos_dir).
Local Abbreviation step_clear := (step_clear videos_dir write_error vid).
Local Abbreviation run_stage := (Video.run_stage videos_dir write_error).
Local Abbreviation run_steps := (Video.run_steps videos_dir utcnow write_error).
Local Abbreviation process_video := (Video.process_video videos_dir utcnow write_error).

(** The world once stage [s] has been entered. *)
Local Abbreviation entered s w := (world (enter s w)).

Lemma save_videos_written videos w n :
  save_outcome n = Written →
  save_videos videos (mk_disk w n)
    = (Return tt,
       mk_disk (mk_world videos (files w) (ticks w) (log w ++ [Saved videos])%list) (S n)).
Proof.
  intros Hs. unfold Tasks.save_videos, bind, get, put. cbn [dk_world dk_saves].
  by rewrite Hs.
Qed.

Lemma save_videos_refused videos w n :
  save_outcome n = Refused →
  save_videos videos (mk_disk w n) = (Raise save_failure, mk_disk w (S n)).
Proof.
  intros Hs. unfold Tasks.save_videos, bind, get, put. cbn [dk_world dk_saves].
  by rewrite Hs.
Qed.

Lemma checkpoint_written f videos w n :
  save_outcome n = Written →
  checkpoint vid f videos (mk_disk w n)
    = (Return (alter (λ v, with_updated_at (utcnow (ticks w)) (f v)) vid videos),
       mk_disk (world (Video.checkpoint utcnow vid f videos w)) (S n)).
Proof.
  intros Hs. unfold Tasks.checkpoint.
  erewrite run_bind by reflexivity. cbv beta zeta.
  erewrite run_bind by (by apply save_videos_written). reflexivity.
Qed.

Lemma mark_video_failed_written msg w n v :
  videos_file w !! vid = Some v → save_outcome n = Written →
  mark_video_failed vid msg (mk_disk w n)
    = (Return tt, mk_disk (world (Video.mark_video_failed utcnow vid msg w)) (S n)).
Proof.
  intros Hv Hs. unfold Tasks.mark_video_failed.
  erewrite run_bind by reflexivity. cbn [dk_world]. rewrite Hv.
  erewrite run_bind by reflexivity.
  rewrite save_videos_written by done.
  unfold Video.mark_video_failed, utcnow_isoformat, Video.load_videos, Video.save_videos,
    bind, get, put, modify, ret, world.
  cbv beta iota. rewrite Hv. reflexivity.
Qed.

Lemma mark_video_failed_missing msg w n :
  videos_file w !! vid = None →
  mark_video_failed vid msg (mk_disk w n) = (Return tt, mk_disk w n) ∧
  Video.mark_video_failed utcnow vid msg w = (Return tt, w).
Proof.
  intros Hv. split.
  - unfold Tasks.mark_video_failed. erewrite run_bind by reflexivity.
    cbn [dk_world]. by rewrite Hv.
  - unfold Video.mark_video_failed. erewrite run_bind by reflexivity. by rewrite Hv.
Qed.

Lemma stage_before_sleep_found s w n v :
  videos_file w !! vid = Some v →
  stage_before_sleep s vid (mk_disk w n)
    = (Return (videos_file w), mk_disk (entered s w) n).
Proof.
  intros Hv.
  unfold stage_before_sleep, Tasks.load_videos, Video.load_videos, on_world, enter,
    bind, get, modify, ret.
  cbn [dk_world dk_saves videos_file]. by rewrite Hv.
Qed.

Lemma stage_before_sleep_missing s w n :
  videos_file w !! vid = None →
  stage_before_sleep s vid (mk_disk w n)
    = (Raise (KeyError vid), mk_disk (entered s w) n).
Proof.
  intros Hv.
  unfold stage_before_sleep, Tasks.load_videos, Video.load_videos, on_world, enter,
    bind, get, modify, ret.
  cbn [dk_world dk_saves videos_file]. by rewrite Hv.
Qed.

Lemma proceed_cons st rest videos w n v :
  videos_file w !! vid = Some v →
  proceed vid (st :: rest) videos (mk_disk w n)
    = (Return (Sleeping vid st rest videos (videos_file w)),
       mk_disk (entered (step_stage st) w) n).
Proof.
  intros Hv. unfold proceed.
  by erewrite run_bind by (by apply (stage_before_sleep_found _ _ _ v)).
Qed.

Lemma proceed_missing st rest videos w n :
  videos_file w !! vid = None →
  proceed vid (st :: rest) videos (mk_disk w n)
    = (Raise (KeyError vid), mk_disk (entered (step_stage st) w) n).
Proof.
  intros Hv. unfold proceed.
  by erewrite run_bind_raise by (by apply stage_before_sleep_missing).
Qed.

Lemma run_from_ext fuel (c c' : M Disk task) d d' :
  c d = c' d' → run_from fuel vid c d = run_from fuel vid c' d'.
Proof.
  intros H. unfold Tasks.run_from, Tasks.turn_of, Tasks.guarded, try_except.
  by rewrite H.
Qed.

Lemma run_alone_created fuel d :
  run_alone (S fuel) (Created vid) d = run_from fuel vid (begin vid) d.
Proof. reflexivity. Qed.

Lemma run_from_sleep fuel st rest videos w n v :
  videos_file w !! vid = Some v →
  run_from (S fuel) vid (proceed vid (st :: rest) videos) (mk_disk w n)
    = run_from fuel vid (wake vid st rest videos (videos_file w))
        (mk_disk (entered (step_stage st) w) n).
Proof.
  intros Hv. unfold Tasks.run_from at 1. unfold Tasks.turn_of, Tasks.guarded, try_except.
  by rewrite (proceed_cons _ _ _ _ _ v).
Qed.

Lemma run_from_end fuel videos d :
  run_from fuel vid (proceed vid [] videos) d = (Finished, d).
Proof. by destruct fuel. Qed.

(** A turn that raises [e] inside the [try] ends in the handler. *)
Lemma run_from_raise fuel (c : M Disk task) d e d1 d2 :
  c d = (Raise e, d1) →
  mark_video_failed vid (str_of_exn e) d1 = (Return tt, d2) →
  run_from fuel vid c d = (Finished, d2).
Proof.
  intros Hc Hm. unfold Tasks.run_from, Tasks.turn_of, Tasks.guarded, try_except.
  rewrite Hc. erewrite run_bind by exact Hm. by destruct fuel.
Qed.

(** A stage after its sleep, when its file and the store can be written,
    leaves what the stage of [Video] leaves. *)
Lemma stage_after_sleep_clear s set_path w n v :
  videos_file w !! vid = Some v →
  write_error (stage_path s vid) = None → save_outcome n = Written →
  stage_after_sleep s set_path vid (videos_file w) (mk_disk (entered s w) n)
    = (Return tt, mk_disk (world (run_stage s set_path vid w)) (S n)).
Proof.
  intros Hv Hw Hs. rewrite (run_stage_exact _ _ _ _ _ _ v) by done.
  unfold Tasks.stage_after_sleep.
  erewrite run_bind
    by (unfold on_world, write_file; cbn [dk_world dk_saves]; rewrite Hw; reflexivity).
  rewrite save_videos_written by done.
  by rewrite (alter_present _ _ _ v).
Qed.

Lemma wake_clear st rest videos w n v :
  videos_file w !! vid = Some v →
  write_error (stage_path (step_stage st) vid) = None →
  save_outcome n = Written → save_outcome (S n) = Written →
  let w1 := world (run_stage (step_stage st) (step_path st) vid w) in
  let w2 := world (Video.checkpoint utcnow vid (step_update st) videos w1) in
  wake vid st rest videos (videos_file w) (mk_disk (entered (step_stage st) w) n)
    = proceed vid rest
        (alter (λ v, with_updated_at (utcnow (ticks w)) (step_update st v)) vid videos)
        (mk_disk w2 (S (S n))).
Proof.
  intros Hv Hw Hs1 Hs2 w1 w2. unfold Tasks.wake.
  erewrite run_bind by (by apply (stage_after_sleep_clear _ _ _ _ v)).
  erewrite run_bind by (by apply checkpoint_written).
  subst w2 w1. by rewrite (run_stage_exact _ _ _ _ _ _ v).
Qed.

(** Clear steps taken one turn each, with nothing in between, are the
    clear steps of [Video.run_steps]: the same world, two writes of the
    store per step. *)
Lemma run_from_clear pre : ∀ post w n fuel vl,
  Forall step_clear pre →
  (∀ k, (n ≤ k < n + 2 * length pre)%nat → save_outcome k = Written) →
  videos_file w !! vid = Some vl →
  ∃ w',
    run_steps pre vid (videos_file w) w = (Return tt, w') ∧
    (∀ l, run_steps (pre ++ l) vid (videos_file w) w
          = run_steps l vid (videos_file w') w') ∧
    run_from (length pre + fuel) vid (proceed vid (pre ++ post) (videos_file w))
        (mk_disk w n)
      = run_from fuel vid (proceed vid post (videos_file w'))
          (mk_disk w' (n + 2 * length pre)).
Proof.
  induction pre as [|st pre IH]; intros post w n fuel vl Hclear Hsave Hv.
  - exists w. split; [reflexivity|]. split; [reflexivity|].
    cbn [length app Nat.add Nat.mul]. by rewrite Nat.add_0_r.
  - apply Forall_cons_1 in Hclear as [[Hwrite _] Hrest].
    pose proof (run_stage_exact videos_dir write_error vid (step_stage st)
                  (step_path st) w vl Hv Hwrite) as Hrun1.
    set (w1 := mk_world _ _ _ _) in Hrun1.
    pose proof (checkpoint_exact utcnow vid (step_update st) (videos_file w) w1)
      as Hrun2.
    set (w2 := mk_world _ _ _ _) in Hrun2.
    assert (Hv2 : videos_file w2 !! vid
                  = Some (with_updated_at (utcnow (ticks w)) (step_update st vl))).
    { subst w2. cbn [videos_file]. rewrite lookup_alter_eq, Hv. reflexivity. }
    assert (Hsave2 : ∀ k, (S (S n) ≤ k < S (S n) + 2 * length pre)%nat →
                          save_outcome k = Written).
    { intros k Hk. apply Hsave. cbn [length]. lia. }
    destruct (IH post w2 (S (S n)) fuel _ Hrest Hsave2 Hv2)
      as (w3 & Hrun3 & Happ3 & Hfrom3).
    exists w3. split.
    { cbn [Video.run_steps]. erewrite run_bind by exact Hrun1.
      erewrite run_bind by exact Hrun2. exact Hrun3. }
    split.
    { intros l. cbn [app Video.run_steps]. erewrite run_bind by exact Hrun1.
      erewrite run_bind by exact Hrun2. apply Happ3. }
    cbn [length app Nat.add].
    rewrite (run_from_sleep _ _ _ _ _ _ vl) by done.
    erewrite run_from_ext; cycle 1.
    { apply (wake_clear _ _ _ _ _ vl); [done | done | |];
        apply Hsave; cbn [length]; lia. }
    cbv zeta. rewrite Hrun1. unfold world at 2. cbn [snd]. rewrite Hrun2.
    unfold world. cbn [snd].
    replace (n + 2 * S (length pre))%nat with (S (S n) + 2 * length pre)%nat by lia.
    exact Hfrom3.
Qed.

(** The first turn up to the first stage. *)
Lemma run_alone_begin fuel w n v :
  videos_file w !! vid = Some v → save_outcome n = Written →
  let w1 := world (Video.checkpoint utcnow vid
                     (λ v, with_progress 10 (with_status "processing" v))
                     (videos_file w) w) in
  run_alone (S fuel) (Created vid) (mk_disk w n)
    = run_from fuel vid (proceed vid steps (videos_file w1)) (mk_disk w1 (S n)).
Proof.
  intros Hv Hs w1. rewrite run_alone_created. apply run_from_ext.
  unfold Tasks.begin. erewrite run_bind by reflexivity. cbn [dk_world]. rewrite Hv.
  erewrite run_bind by (by apply checkpoint_written). reflexivity.
Qed.

Lemma run_alone_unknown fuel w n :
  videos_file w !! vid = None →
  run_alone (S fuel) (Created vid) (mk_disk w n) = (Finished, mk_disk w n).
Proof.
  intros Hv. rewrite run_alone_created.
  unfold Tasks.run_from, Tasks.turn_of, Tasks.guarded, try_except, Tasks.begin.
  erewrite run_bind by reflexivity. cbn [dk_world]. rewrite Hv. by destruct fuel.
Qed.

(** The turn in which a stage raises: at its file write, or at its
    write of the store when that is refused.  The handler then runs
    [mark_video_failed] on a world that holds the store as the stage
    found it. *)
Lemma run_from_stage_raises fuel st rest videos w n v e :
  videos_file w !! vid = Some v →
  (write_error (stage_path (step_stage st) vid) = Some e ∧ save_outcome n = Written) ∨
  (write_error (stage_path (step_stage st) vid) = None ∧ save_outcome n = Refused ∧
   e = save_failure ∧ save_outcome (S n) = Written) →
  ∃ wx nx,
    videos_file wx = videos_file w ∧ files w ⊆ files wx ∧
    log wx = (log w ++ [Entered (step_stage st)])%list ∧
    run_from (S fuel) vid (proceed vid (st :: rest) videos) (mk_disk w n)
      = (Finished,
         mk_disk (world (Video.mark_video_failed utcnow vid (str_of_exn e) wx)) nx).
Proof.
  intros Hv [(Hw & Hs) | (Hw & Hs & -> & Hs')];
    rewrite (run_from_sleep _ _ _ _ _ _ v) by done.
  - exists (entered (step_stage st) w), (S n). split; [reflexivity|].
    split; [reflexivity|]. split; [reflexivity|].
    eapply run_from_raise.
    + unfold Tasks.wake, Tasks.stage_after_sleep.
      erewrite run_bind_raise; [reflexivity|].
      erewrite run_bind_raise; [reflexivity|].
      unfold on_world, write_file. cbn [dk_world dk_saves]. by rewrite Hw.
    + by apply (mark_video_failed_written _ _ _ v).
  - exists (mk_world (videos_file w)
              (files w ∪ {[stage_path (step_stage st) vid]}) (ticks w)
              (log w ++ [Entered (step_stage st)])%list), (S (S n)).
    split; [reflexivity|]. split; [apply union_subseteq_l|]. split; [reflexivity|].
    eapply run_from_raise.
    + unfold Tasks.wake, Tasks.stage_after_sleep.
      erewrite run_bind_raise; [reflexivity|].
      erewrite run_bind
        by (unfold on_world, write_file; cbn [dk_world dk_saves]; rewrite Hw;
            reflexivity).
      by apply save_videos_refused.
    + by apply (mark_video_failed_written _ _ _ v).
Qed.

Lemma run_stage_missing s set_path w :
  videos_file w !! vid = None →
  run_stage s set_path vid w = (Raise (KeyError vid), entered s w).
Proof.
  intros Hv.
  unfold Video.run_stage, bind, enter, Video.load_videos, modify, get, ret, world.
  simpl. by rewrite Hv.
Qed.

(** From any point between two steps on, a task that is given all the
    turns, with every write of the store going through, leaves the world
    that the rest of [Video.process_video] leaves, whatever fails. *)
Lemma run_from_steps l : ∀ videos w n fuel,
  (∀ k, (n ≤ k)%nat → save_outcome k = Written) →
  (length l ≤ fuel)%nat →
  ∃ n',
    run_from fuel vid (proceed vid l videos) (mk_disk w n)
      = (Finished,
         mk_disk (world (try_except (run_steps l vid videos)
                           (λ e, Video.mark_video_failed utcnow vid (str_of_exn e)) w))
                 n').
Proof.
  induction l as [|st rest IH]; intros videos w n fuel Hsave Hfuel.
  - exists n. by rewrite run_from_end.
  - destruct (videos_file w !! vid) as [v|] eqn:Hv.
    + destruct fuel as [|fuel]; [cbn [length] in Hfuel; lia|].
      cbn [length] in Hfuel.
      rewrite (run_from_sleep _ _ _ _ _ _ v) by done.
      destruct (write_error (stage_path (step_stage st) vid)) as [e|] eqn:Hw.
      * exists (S n). unfold try_except. cbn [Video.run_steps].
        erewrite (run_bind_raise (run_stage _ _ _))
          by (by apply (run_stage_raises _ _ _ _ _ _ v)).
        eapply run_from_raise.
        -- unfold Tasks.wake, Tasks.stage_after_sleep.
           erewrite run_bind_raise; [reflexivity|].
           erewrite run_bind_raise; [reflexivity|].
           unfold on_world, write_file. cbn [dk_world dk_saves]. by rewrite Hw.
        -- apply (mark_video_failed_written _ _ _ v); [done | apply Hsave; lia].
      * erewrite run_from_ext; cycle 1.
        { apply (wake_clear _ _ _ _ _ v); [done | done | |]; apply Hsave; lia. }
        cbv zeta.
        pose proof (run_stage_exact videos_dir write_error vid (step_stage st)
                      (step_path st) w v Hv Hw) as Hrun1.
        set (w1 := mk_world _ _ _ _) in Hrun1.
        pose proof (checkpoint_exact utcnow vid (step_update st) videos w1) as Hrun2.
        set (w2 := mk_world _ _ _ _) in Hrun2.
        rewrite Hrun1. unfold world at 2. cbn [snd]. rewrite Hrun2.
        unfold world at 1. cbn [snd].
        destruct (IH (alter (λ v, with_updated_at (utcnow (ticks w1)) (step_update st v))
                        vid videos) w2 (S (S n)) fuel) as (n' & Hrun3).
        { intros k Hk. apply Hsave. lia. }
        { lia. }
        exists n'. subst w1. cbn [ticks] in Hrun3 |- *. rewrite Hrun3.
        unfold try_except. cbn [Video.run_steps].
        erewrite (run_bind (run_stage _ _ _)) by exact Hrun1.
        erewrite (run_bind (Video.checkpoint _ _ _ _)) by exact Hrun2.
        reflexivity.
    + exists n. unfold try_except. cbn [Video.run_steps].
      erewrite (run_bind_raise (run_stage _ _ _)) by (by apply run_stage_missing).
      eapply run_from_raise; [by apply proceed_missing|].
      destruct (mark_video_failed_missing (str_of_exn (KeyError vid))
                  (entered (step_stage st) w) n Hv) as [Hm1 Hm2].
      rewrite Hm2. exact Hm1.
Qed.

(** [Video.process_video] is the task run on its own with every write
    of the store going through: six turns bring it to its return, and
    the world it leaves is the one [Video.process_video] computes. *)
Lemma run_alone_process_video w n fuel :
  (∀ k, (n ≤ k)%nat → save_outcome k = Written) →
  (6 ≤ fuel)%nat →
  ∃ n',
    run_alone fuel (Created vid) (mk_disk w n)
      = (Finished, mk_disk (world (process_video vid w)) n').
Proof.
  intros Hsave Hfuel. destruct fuel as [|fuel]; [lia|].
  destruct (videos_file w !! vid) as [v|] eqn:Hv.
  - rewrite (run_alone_begin _ _ _ v) by (try done; apply Hsave; lia).
    cbv zeta.
    pose proof (checkpoint_exact utcnow vid
                  (λ v, with_progress 10 (with_status "processing" v))
                  (videos_file w) w) as Hrun1.
    set (w1 := mk_world _ _ _ _) in Hrun1.
    rewrite Hrun1. unfold world at 1 2. cbn [snd].
    destruct (run_from_steps steps (videos_file w1) w1 (S n) fuel) as (n' & Hrun2).
    { intros k Hk. apply Hsave. lia. }
    { cbn [steps length]. lia. }
    exists n'. rewrite Hrun2. rewrite process_video_steps. unfold try_except.
    erewrite (run_bind Video.load_videos) by apply load_videos_run. rewrite Hv.
    erewrite (run_bind (Video.checkpoint _ _ _ _)) by exact Hrun1.
    reflexivity.
  - exists n. rewrite run_alone_unknown by done.
    by rewrite process_video_unknown_id.
Qed.

Lemma steps_split pre s post :
  pipeline = (pre ++ s :: post)%list →
  (∀ s', s' ∈ pre → write_error (stage_path s' vid) = None) →
  ∃ lpre st lpost,
    steps = (lpre ++ st :: lpost)%list ∧ pre = step_stage <$> lpre ∧
    s = step_stage st ∧ Forall step_clear lpre.
Proof.
  intros Hsplit Hpre. rewrite pipeline_steps in Hsplit.
  apply fmap_app_inv in Hsplit as (lpre & lrest & -> & Hrest & Hsteps).
  symmetry in Hrest.
  apply fmap_cons_inv in Hrest as (st & lpost & -> & -> & ->).
  exists lpre, st, lpost. split; [done|]. split; [done|]. split; [done|].
  pose proof steps_keep as Hk. rewrite Hsteps in Hk.
  apply Forall_app in Hk as [Hk _].
  apply Forall_forall. intros st' Hin. split.
  - apply Hpre. by apply list_elem_of_fmap_2.
  - by eapply Forall_forall in Hk.
Qed.

(** C5 (amended).  A task that runs on its own from its creation, for a
    record that is in the store, with no stage's file write raising and
    every write of [videos.json] going through, ends by returning after
    six turns; the five stages are entered in the order generate_script,
    generate_audio, generate_video_content, generate_thumbnail,
    finalize_video; the persisted progress never decreases and takes the
    values 10, 30, 50, 80, 95, 100 in that order; the record ends with
    status "completed" and progress 100. *)
Theorem process_video_alone_completes v d fuel :
  videos_file (dk_world d) !! vid = Some v →
  (∀ s, write_error (stage_path s vid) = None) →
  (∀ k, (dk_saves d ≤ k < dk_saves d + 11)%nat → save_outcome k = Written) →
  (6 ≤ fuel)%nat →
  ∃ d' v' trace,
    run_alone fuel (Created vid) d = (Finished, d') ∧
    log (dk_world d') = (log (dk_world d) ++ trace)%list ∧
    stages_of trace = pipeline ∧
    nondecreasing (progress_of vid trace) = true ∧
    changes (progress_of vid trace) = [10; 30; 50; 80; 95; 100] ∧
    videos_file (dk_world d') !! vid = Some v' ∧
    status v' = "completed" ∧ progress v' = 100.
Proof.
  destruct d as [w n]. cbn [dk_world dk_saves]. intros Hv Hwrite Hsave Hfuel.
  destruct (checkpoint_run utcnow vid (λ v, with_progress 10 (with_status "processing" v))
              (videos_file w) w v Hv)
    as (w1 & v1 & Hrun1 & Hv1 & Hp1 & Hs1 & Hemit1).
  assert (Hclear : Forall step_clear steps) by (by apply steps_clear_all).
  destruct (run_steps_ok videos_dir utcnow write_error vid steps (videos_file w1) w1 v1 v1
              Hclear Hv1 Hv1 eq_refl eq_refl)
    as (w2 & v2 & Hrun2 & Hv2 & Hp2 & Hs2 & Hemit2).
  cbn [progress with_progress] in Hp1. rewrite Hp1 in Hemit2.
  destruct (emits_trans _ _ _ _ _ _ _ _ Hemit1 Hemit2) as (trace & Hlog & Hst & Hpr).
  assert (Hsave1 : ∀ k, (S n ≤ k < S n + 2 * length steps)%nat →
                        save_outcome k = Written).
  { intros k Hk. apply Hsave. cbn [steps length] in Hk. lia. }
  destruct (run_from_clear steps [] w1 (S n) (fuel - 6) v1 Hclear Hsave1 Hv1)
    as (w2' & Hrun2' & _ & Hfrom).
  rewrite Hrun2 in Hrun2'. injection Hrun2' as <-.
  rewrite app_nil_r, run_from_end in Hfrom.
  exists (mk_disk w2 (S n + 2 * length steps)), v2, trace. split.
  { replace fuel with (S (length steps + (fuel - 6)))
      by (cbn [steps length]; lia).
    rewrite (run_alone_begin _ _ _ v) by (try done; apply Hsave; lia).
    cbv zeta. rewrite Hrun1. unfold world. cbn [snd]. exact Hfrom. }
  cbn [dk_world]. split; [exact Hlog|]. split; [exact Hst|].
  rewrite Hpr. split; [reflexivity|]. split; [reflexivity|].
  split; [exact Hv2|]. split; [by rewrite Hs2 | by rewrite Hp2].
Qed.

(** C6 (amended).  A task runs on its own from its creation, for a
    record that is in the store.  The stages before [s] go through, and
    stage [s] raises [e]: at its file write, or at its write of
    [videos.json] when that write is refused and leaves the file as it
    was.  Then no later stage is entered and none is entered twice, and,
    the write of [mark_video_failed] going through, the task returns and
    the record ends with status "failed" and [error_message] the text of
    [e]. *)
Theorem process_video_alone_marks_failed v d pre s post e fuel :
  videos_file (dk_world d) !! vid = Some v →
  pipeline = (pre ++ s :: post)%list →
  (∀ s', s' ∈ pre → write_error (stage_path s' vid) = None) →
  (∀ k, (dk_saves d ≤ k < dk_saves d + 1 + 2 * length pre)%nat →
        save_outcome k = Written) →
  (write_error (stage_path s vid) = Some e ∧
   save_outcome (dk_saves d + 1 + 2 * length pre) = Written) ∨
  (write_error (stage_path s vid) = None ∧
   save_outcome (dk_saves d + 1 + 2 * length pre) = Refused ∧
   e = save_failure ∧
   save_outcome (S (dk_saves d + 1 + 2 * length pre)) = Written) →
  (length pre + 2 ≤ fuel)%nat →
  ∃ d' v' trace,
    run_alone fuel (Created vid) d = (Finished, d') ∧
    log (dk_world d') = (log (dk_world d) ++ trace)%list ∧
    stages_of trace = (pre ++ [s])%list ∧
    videos_file (dk_world d') !! vid = Some v' ∧
    status v' = "failed" ∧ error_message v' = Some (str_of_exn e).
Proof.
  destruct d as [w n]. cbn [dk_world dk_saves].
  intros Hv Hsplit Hpre Hsave Hfail Hfuel.
  destruct (steps_split pre s post Hsplit Hpre)
    as (lpre & st & lpost & Hsteps & -> & -> & Hclear).
  rewrite length_fmap in Hsave, Hfail, Hfuel.
  destruct (checkpoint_run utcnow vid (λ v, with_progress 10 (with_status "processing" v))
              (videos_file w) w v Hv)
    as (w1 & v1 & Hrun1 & Hv1 & _ & _ & (t1 & Hlog1 & Hst1 & _)).
  destruct (run_steps_ok videos_dir utcnow write_error vid lpre (videos_file w1) w1 v1 v1
              Hclear Hv1 Hv1 eq_refl eq_refl)
    as (w2 & v2 & Hrun2 & Hv2 & _ & _ & (t2 & Hlog2 & Hst2 & _)).
  assert (Hsave1 : ∀ k, (S n ≤ k < S n + 2 * length lpre)%nat →
                        save_outcome k = Written).
  { intros k Hk. apply Hsave. lia. }
  destruct (run_from_clear lpre (st :: lpost) w1 (S n) (S (fuel - length lpre - 2)) v1
              Hclear Hsave1 Hv1)
    as (w2' & Hrun2' & _ & Hfrom).
  rewrite Hrun2 in Hrun2'. injection Hrun2' as <-.
  replace (n + 1 + 2 * length lpre)%nat with (S n + 2 * length lpre)%nat in Hfail by lia.
  destruct (run_from_stage_raises (fuel - length lpre - 2) st lpost (videos_file w2) w2
              (S n + 2 * length lpre) v2 e Hv2 Hfail)
    as (wx & nx & Hvx & _ & Hlogx & Hfin).
  rewrite <- Hvx in Hv2.
  destruct (mark_video_failed_run utcnow vid (str_of_exn e) wx v2 Hv2)
    as (w3 & v3 & Hrun3 & Hv3 & Hs3 & He3 & t3 & Hlog3 & Hst3).
  rewrite Hrun3 in Hfin. unfold world in Hfin. cbn [snd] in Hfin.
  exists (mk_disk w3 nx), v3, (t1 ++ t2 ++ [Entered (step_stage st)] ++ t3)%list.
  split.
  { replace fuel with (S (length lpre + S (fuel - length lpre - 2))) by lia.
    rewrite (run_alone_begin _ _ _ v) by (try done; apply Hsave; lia).
    cbv zeta. rewrite Hrun1. unfold world. cbn [snd].
    rewrite <- Hsteps in Hfrom. rewrite Hfrom. exact Hfin. }
  cbn [dk_world].
  split; [by rewrite Hlog3, Hlogx, Hlog2, Hlog1, <- !app_assoc|].
  split.
  { rewrite !stages_of_app, Hst1, Hst2, Hst3. cbn [stages_of omap app].
    by rewrite app_nil_r. }
  done.
Qed.

Lemma mark_video_failed_exact msg w v :
  videos_file w !! vid = Some v →
  Video.mark_video_failed utcnow vid msg w
    = (Return tt,
       mk_world (<[vid := with_updated_at (utcnow (ticks w))
                           (with_error_message (Some msg) (with_status "failed" v))]>
                   (videos_file w))
                (files w) (S (ticks w))
                (log w ++ [Saved (<[vid := with_updated_at (utcnow (ticks w))
                                            (with_error_message (Some msg)
                                               (with_status "failed" v))]>
                                    (videos_file w))])%list).
Proof.
  intros Hv.
  unfold Video.mark_video_failed, utcnow_isoformat, Video.load_videos, Video.save_videos,
    bind, get, put, modify, ret.
  cbv beta iota. rewrite Hv. reflexivity.
Qed.

(** X29.  What the failed run of a task on its own leaves besides the
    status, when stage [s] raises at its file write or at a refused write
    of [videos.json] (everything before having gone through, and the
    write of [mark_video_failed] going through): the progress of the last
    checkpoint before the failing stage (10, 30, 50, 80 or 95 for a
    failure in the first to fifth stage), the path fields the record had
    at the start (none of the paths saved by the stages that went
    through), and those stages' files on disk. *)
Theorem process_video_alone_failed_record v d pre s post e fuel :
  videos_file (dk_world d) !! vid = Some v →
  pipeline = (pre ++ s :: post)%list →
  (∀ s', s' ∈ pre → write_error (stage_path s' vid) = None) →
  (∀ k, (dk_saves d ≤ k < dk_saves d + 1 + 2 * length pre)%nat →
        save_outcome k = Written) →
  (write_error (stage_path s vid) = Some e ∧
   save_outcome (dk_saves d + 1 + 2 * length pre) = Written) ∨
  (write_error (stage_path s vid) = None ∧
   save_outcome (dk_saves d + 1 + 2 * length pre) = Refused ∧
   e = save_failure ∧
   save_outcome (S (dk_saves d + 1 + 2 * length pre)) = Written) →
  (length pre + 2 ≤ fuel)%nat →
  ∃ d' v',
    run_alone fuel (Created vid) d = (Finished, d') ∧
    videos_file (dk_world d') !! vid = Some v' ∧
    progress v' = nth (length pre) [10; 30; 50; 80; 95] 0 ∧
    local_path v' = local_path v ∧ thumbnail_path v' = thumbnail_path v ∧
    script_path v' = script_path v ∧ audio_path v' = audio_path v ∧
    video_path v' = video_path v ∧
    ∀ s', s' ∈ pre → stage_path s' vid ∈ files (dk_world d').
Proof.
  destruct d as [w n]. cbn [dk_world dk_saves].
  intros Hv Hsplit Hpre Hsave Hfail Hfuel.
  destruct (steps_split pre s post Hsplit Hpre)
    as (lpre & st & lpost & Hsteps & -> & -> & Hclear).
  rewrite length_fmap in Hsave, Hfail, Hfuel |- *.
  pose proof (checkpoint_exact utcnow vid
                (λ v, with_progress 10 (with_status "processing" v))
                (videos_file w) w) as Hrun1.
  set (w1 := mk_world _ _ _ _) in Hrun1.
  assert (Hv1 : videos_file w1 !! vid
                = Some (with_updated_at (utcnow (ticks w))
                          (with_progress 10 (with_status "processing" v)))).
  { subst w1. cbn [videos_file]. by rewrite lookup_alter_eq, Hv. }
  destruct (run_steps_exact videos_dir utcnow write_error vid lpre w1 _ Hclear Hv1)
    as (w2 & Hrun2 & Hv2 & _ & _ & Hf2).
  assert (Hsave1 : ∀ k, (S n ≤ k < S n + 2 * length lpre)%nat →
                        save_outcome k = Written).
  { intros k Hk. apply Hsave. lia. }
  destruct (run_from_clear lpre (st :: lpost) w1 (S n) (S (fuel - length lpre - 2)) _
              Hclear Hsave1 Hv1)
    as (w2' & Hrun2' & _ & Hfrom).
  rewrite Hrun2 in Hrun2'. injection Hrun2' as <-.
  replace (n + 1 + 2 * length lpre)%nat with (S n + 2 * length lpre)%nat in Hfail by lia.
  destruct (run_from_stage_raises (fuel - length lpre - 2) st lpost (videos_file w2) w2
              (S n + 2 * length lpre) _ e Hv2 Hfail)
    as (wx & nx & Hvx & Hfx & _ & Hfin).
  rewrite <- Hvx in Hv2.
  rewrite (mark_video_failed_exact _ _ _ Hv2) in Hfin.
  unfold world in Hfin. cbn [snd] in Hfin.
  destruct (replay_record_fields utcnow lpre (ticks w1)
              (with_updated_at (utcnow (ticks w))
                 (with_progress 10 (with_status "processing" v))))
    as (Hp & Hl & Ht & Hs & Ha & Hvp).
  set (r := replay_record utcnow lpre (ticks w1) _) in *.
  eexists (mk_disk _ nx), _. split.
  { replace fuel with (S (length lpre + S (fuel - length lpre - 2))) by lia.
    rewrite (run_alone_begin _ _ _ v) by (try done; apply Hsave; lia).
    cbv zeta. rewrite Hrun1. unfold world. cbn [snd].
    change (alter _ vid (videos_file w)) with (videos_file w1).
    rewrite <- Hsteps in Hfrom. rewrite Hfrom. exact Hfin. }
  cbn [dk_world videos_file files]. split; [by rewrite lookup_insert_eq|].
  cbn [progress local_path thumbnail_path script_path audio_path video_path
       with_updated_at with_error_message with_status].
  rewrite Hp, Hl, Ht, Hs, Ha, Hvp. split.
  { cbn [progress with_updated_at with_progress].
    assert (Hlen : (length lpre < 5)%nat).
    { apply (f_equal length) in Hsteps. rewrite length_app in Hsteps.
      simpl in Hsteps. lia. }
    assert (Htake : lpre = take (length lpre) steps).
    { by rewrite Hsteps, take_app_length. }
    rewrite Htake at 1.
    destruct (length lpre) as [|[|[|[|[|m]]]]]; [reflexivity.. | lia]. }
  do 5 (split; [done|]).
  intros s' Hin. apply Hfx. rewrite Hf2. apply elem_of_union_r. unfold stage_files.
  apply elem_of_list_to_set.
  apply list_elem_of_fmap_1 in Hin as (st' & -> & Hin).
  apply list_elem_of_fmap. by exists st'.
Qed.

End Alone.
Lemma run_alone_ended videos_dir utcnow write_error save_outcome fuel t d :
  sleeping_in t = None → (∀ vid, t ≠ Created vid) →
  run_alone videos_dir utcnow write_error save_outcome fuel t d = (t, d).
Proof.
  intros Hs Hc. destruct fuel; [done|]. destruct t; try done.
  by destruct (Hc vid).
Qed.

(** Running a task on its own is the schedule that gives it every turn. *)
Lemma run_schedule_alone videos_dir utcnow write_error save_outcome i fuel : ∀ lp t,
  lp_tasks lp !! i = Some t →
  run_schedule videos_dir utcnow write_error save_outcome (replicate fuel (Resume i)) lp
    = let (t', d') := run_alone videos_dir utcnow write_error save_outcome fuel t
                        (lp_disk lp) in
      mk_loop d' (<[i := t']> (lp_tasks lp)).
Proof.
  induction fuel as [|fuel IH]; intros lp t Ht.
  - cbn [replicate run_schedule fold_left Tasks.run_alone].
    rewrite list_insert_id by done. by destruct lp.
  - cbn [replicate].
    change (run_schedule videos_dir utcnow write_error save_outcome
              (Resume i :: replicate fuel (Resume i)) lp)
      with (run_schedule videos_dir utcnow write_error save_outcome
              (replicate fuel (Resume i))
              (turn videos_dir utcnow write_error save_outcome lp (Resume i))).
    unfold turn. rewrite Ht.
    destruct (resume videos_dir utcnow write_error save_outcome t (lp_disk lp))
      as [t1 d1] eqn:Hres.
    assert (Hi : (i < length (lp_tasks lp))%nat) by (by eapply lookup_lt_Some).
    rewrite (IH _ t1) by (cbn [lp_tasks]; by rewrite list_lookup_insert_eq).
    cbn [lp_disk lp_tasks].
    assert (Hrun : run_alone videos_dir utcnow write_error save_outcome (S fuel) t
                     (lp_disk lp)
                   = run_alone videos_dir utcnow write_error save_outcome fuel t1 d1).
    { destruct t as [vid|vid st rest videos sv| |e].
      - cbn [Tasks.run_alone]. by rewrite Hres.
      - cbn [Tasks.run_alone]. by rewrite Hres.
      - cbn [Tasks.resume] in Hres. injection Hres as <- <-.
        by rewrite !run_alone_ended.
      - cbn [Tasks.resume] in Hres. injection Hres as <- <-.
        by rewrite !run_alone_ended. }
    rewrite Hrun.
    destruct (run_alone videos_dir utcnow write_error save_outcome fuel t1 d1)
      as [t' d'].
    by rewrite list_insert_insert_eq.
Qed.

Lemma process_video_alone_completes_witness :
  ∃ d' v' trace,
    run_alone "videos" clock no_write_error all_written 6 (Created "video_01")
      (mk_disk sample_world 0) = (Finished, d') ∧
    log (dk_world d') = (log sample_world ++ trace)%list ∧
    stages_of trace = pipeline ∧
    nondecreasing (progress_of "video_01" trace) = true ∧
    changes (progress_of "video_01" trace) = [10; 30; 50; 80; 95; 100] ∧
    videos_file (dk_world d') !! "video_01" = Some v' ∧
    status v' = "completed" ∧ progress v' = 100.
Proof.
  apply (process_video_alone_completes "videos" clock no_write_error all_written
           "video_01" sample_video (mk_disk sample_world 0) 6).
  - reflexivity.
  - intros s. reflexivity.
  - intros k Hk. reflexivity.
  - lia.
Defined.

Lemma process_video_alone_marks_failed_witness :
  (∃ d' v' trace,
     run_alone "videos" clock audio_write_error all_written 3 (Created "video_01")
       (mk_disk sample_world 0) = (Finished, d') ∧
     log (dk_world d') = (log sample_world ++ trace)%list ∧
     stages_of trace = [GenerateScript; GenerateAudio] ∧
     videos_file (dk_world d') !! "video_01" = Some v' ∧
     status v' = "failed" ∧
     error_message v' = Some "[Errno 28] No space left on device") ∧
  (∃ d' v' trace,
     run_alone "videos" clock no_write_error (refused_at 3) 3 (Created "video_01")
       (mk_disk sample_world 0) = (Finished, d') ∧
     log (dk_world d') = (log sample_world ++ trace)%list ∧
     stages_of trace = [GenerateScript; GenerateAudio] ∧
     videos_file (dk_world d') !! "video_01" = Some v' ∧
     status v' = "failed" ∧
     error_message v' = Some "500: Failed to save video data").
Proof.
  split.
  - apply (process_video_alone_marks_failed "videos" clock audio_write_error all_written
             "video_01" sample_video (mk_disk sample_world 0) [GenerateScript]
             GenerateAudio [GenerateVideoContent; GenerateThumbnail; FinalizeVideo]
             (OSError "[Errno 28] No space left on device") 3).
    + reflexivity.
    + reflexivity.
    + intros s' Hin. apply list_elem_of_singleton in Hin as ->. reflexivity.
    + intros k Hk. reflexivity.
    + left. split; reflexivity.
    + cbn [length]. lia.
  - apply (process_video_alone_marks_failed "videos" clock no_write_error (refused_at 3)
             "video_01" sample_video (mk_disk sample_world 0) [GenerateScript]
             GenerateAudio [GenerateVideoContent; GenerateThumbnail; FinalizeVideo]
             save_failure 3).
    + reflexivity.
    + reflexivity.
    + intros s' Hin. reflexivity.
    + intros k Hk. cbn [dk_saves length] in Hk. unfold refused_at.
      destruct (Nat.eqb_spec 3 k) as [Heq|_]; [lia | reflexivity].
    + right. repeat split; reflexivity.
    + cbn [length]. lia.
Defined.

Lemma process_video_alone_failed_record_witness :
  ∃ d' v',
    run_alone "videos" clock audio_write_error all_written 3 (Created "video_01")
      (mk_disk sample_world 0) = (Finished, d') ∧
    videos_file (dk_world d') !! "video_01" = Some v' ∧
    progress v' = 30 ∧
    local_path v' = None ∧ thumbnail_path v' = None ∧
    script_path v' = None ∧ audio_path v' = None ∧ video_path v' = None ∧
    ∀ s', s' ∈ [GenerateScript] →
          stage_path "videos" s' "video_01" ∈ files (dk_world d').
Proof.
  apply (process_video_alone_failed_record "videos" clock audio_write_error all_written
           "video_01" sample_video (mk_disk sample_world 0) [GenerateScript]
           GenerateAudio [GenerateVideoContent; GenerateThumbnail; FinalizeVideo]
           (OSError "[Errno 28] No space left on device") 3).
  - reflexivity.
  - reflexivity.
  - intros s' Hin. apply list_elem_of_singleton in Hin as ->. reflexivity.
  - intros k Hk. reflexivity.
  - left. split; reflexivity.
  - cbn [length]. lia.
Defined.

(** C5 (the claim as stated fails).  First run: two requests come in
    one after the other; each task starts after its request and the two
    then wake in turn.  No write fails and no stage raises: both tasks
    return, having entered all five stages.  Yet the second task keeps
    saving the dict it loaded when the first video stood at progress 10,
    so the persisted progress of the first video falls from 30 back to 10
    (and again from 50, 80, 95 and 100), and its record ends with status
    "processing" and progress 10.  Second run: a task on its own;
    generate_script goes through (its file is written and its dict saved),
    then the write of [videos.json] at the checkpoint that follows is
    refused: no stage has raised, and the record ends "failed" at
    progress 10. *)
Lemma no_stage_raises_yet_not_completed :
  (let lp := run_schedule "videos" clock no_write_error all_written overlapping idle in
   lp_tasks lp = [Finished; Finished] ∧
   stages_of (lp_log lp)
     = [GenerateScript; GenerateScript; GenerateAudio; GenerateAudio;
        GenerateVideoContent; GenerateVideoContent; GenerateThumbnail;
        GenerateThumbnail; FinalizeVideo; FinalizeVideo] ∧
   progress_of "video_01" (lp_log lp)
     = [0; 10; 10; 10; 10; 30; 10; 10; 30; 50; 10; 10; 50; 80; 10; 10; 80; 95;
        10; 10; 95; 100; 10; 10] ∧
   nondecreasing (progress_of "video_01" (lp_log lp)) = false ∧
   ("failed" ∉ statuses_of "video_01" (lp_log lp)) ∧
   (status <$> lp_record lp "video_01") = Some "processing" ∧
   (progress <$> lp_record lp "video_01") = Some 10) ∧
  (let lp := run_schedule "videos" clock no_write_error (refused_at 3) single idle in
   lp_tasks lp = [Finished] ∧
   stages_of (lp_log lp) = [GenerateScript] ∧
   stage_path "videos" GenerateScript "video_01" ∈ files (dk_world (lp_disk lp)) ∧
   progress_of "video_01" (lp_log lp) = [0; 10; 10; 10] ∧
   (status <$> lp_record lp "video_01") = Some "failed" ∧
   (progress <$> lp_record lp "video_01") = Some 10 ∧
   (error_message <$> lp_record lp "video_01")
     = Some (Some "500: Failed to save video data")).
Proof.
  cbv zeta. split.
  - split; [vm_compute; reflexivity|]. split; [vm_compute; reflexivity|].
    split; [vm_compute; reflexivity|]. split; [vm_compute; reflexivity|].
    split; [|split; vm_compute; reflexivity].
    intros Hin. vm_compute in Hin.
    repeat (apply elem_of_cons in Hin as [Hin|Hin]; [discriminate Hin|]).
    by apply elem_of_nil in Hin.
  - split; [vm_compute; reflexivity|]. split; [vm_compute; reflexivity|].
    split; [by vm_compute|].
    split; [vm_compute; reflexivity|]. split; [vm_compute; reflexivity|].
    split; vm_compute; reflexivity.
Qed.

(** C6 (the claim as stated fails).  First run: a task is asleep in its
    first stage when the request for "video_01" comes in; the new task
    starts (its record is in the store, "processing" at progress 10) and
    sleeps in generate_script; the older task wakes and saves the dicts it
    loaded before the request, which drops the new record; the new task
    wakes, its script write raises, and [mark_video_failed] finds no
    record: none is marked "failed".  Second run: a task on its own; the
    first stage's write of [videos.json] is refused, so the stage raises,
    and so is the write of [mark_video_failed]: the task ends with that
    exception and the record stays "processing" with no error message. *)
Lemma failed_stage_leaves_no_failed_record :
  (let before := run_schedule "videos" clock script_write_error all_written
                   (take 4 late_request) idle in
   let lp := run_schedule "videos" clock script_write_error all_written
               late_request idle in
   (status <$> lp_record before "video_01") = Some "processing" ∧
   (sleeping_in <$> lp_tasks before !! 1%nat) = Some (Some GenerateScript) ∧
   script_write_error (stage_path "videos" GenerateScript "video_01")
     = Some (OSError "[Errno 28] No space left on device") ∧
   lp_tasks lp !! 1%nat = Some Finished ∧
   lp_record lp "video_01" = None) ∧
  (let lp := run_schedule "videos" clock no_write_error (refused_from 2) single idle in
   lp_tasks lp = [Crashed save_failure] ∧
   stages_of (lp_log lp) = [GenerateScript] ∧
   (status <$> lp_record lp "video_01") = Some "processing" ∧
   (error_message <$> lp_record lp "video_01") = Some None).
Proof.
  cbv zeta. split.
  - split; [vm_compute; reflexivity|]. split; [vm_compute; reflexivity|].
    split; [vm_compute; reflexivity|]. split; vm_compute; reflexivity.
  - split; [vm_compute; reflexivity|]. split; [vm_compute; reflexivity|].
    split; vm_compute; reflexivity.
Qed.

(** A write of [videos.json] that fails after [open] has emptied the
    file: the stage raises, [load_videos] answers [{}] from then on, and
    [mark_video_failed] finds no record to mark. *)
Example truncated_write_loses_record :
  let lp := run_schedule "videos" clock no_write_error (truncated_at 2) single idle in
  lp_tasks lp = [Finished] ∧ stages_of (lp_log lp) = [GenerateScript] ∧
  lp_record lp "video_01" = None.
Proof. cbv zeta. repeat split; vm_compute; reflexivity. Qed.

End TasksFacts.

Module RoutesFacts.
Import Py Routes PyFacts.

Lemma in_subscriptions_run {A} (c : M Subscription.Store A) a o s' :
  c (app_subscriptions a) = (o, s') →
  in_subscriptions c a = (o, mk_app s' (app_videos a)).
Proof. intros H. unfold in_subscriptions. by rewrite H. Qed.


Lemma app_eta a : mk_app (app_subscriptions a) (app_videos a) = a.
Proof. by destruct a. Qed.


Lemma check_video_limit_result month uid s b :
  result (Subscription.check_video_limit month uid s) = Return b →
  Subscription.check_video_limit month uid s = (Return b, s).
Proof.
  rewrite SubscriptionFacts.check_video_limit_run. unfold result. cbn [fst].
  by intros [= ->].
Qed.

Lemma create_video_refused utcnow month token_hex uid rq a :
  result (Subscription.check_video_limit month uid (app_subscriptions a)) = Return false →
  create_video utcnow month token_hex uid rq a
    = (Raise (HTTPException 403 "Video limit reached for your subscription tier"), a).
Proof.
  intros H. apply check_video_limit_result in H.
  unfold create_video, try_except_reraise_http, try_except.
  erewrite run_bind by (apply in_subscriptions_run; exact H).
  cbn [negb]. unfold bind, raise. by rewrite app_eta.
Qed.

Lemma create_video_allowed utcnow month token_hex uid rq a :
  result (Subscription.check_video_limit month uid (app_subscriptions a)) = Return true →
  ∃ v a',
    create_video utcnow month token_hex uid rq a = (Return v, a') ∧
    Video.videos_file (Video.rt_world (app_videos a'))
      = <[Video.generate_video_id token_hex := v]>
          (Video.videos_file (Video.rt_world (app_videos a))) ∧
    Video.status v = "pending" ∧ Video.progress v = 0 ∧ Video.user_id v = uid ∧
    Video.rt_tasks (app_videos a')
      = (Video.rt_tasks (app_videos a) ++ [Video.generate_video_id token_hex])%list ∧
    created a' uid month = created a uid month + 1 ∧
    Subscription.subscriptions (app_subscriptions a')
      = Subscription.subscriptions (app_subscriptions a).
Proof.
  intros H. apply check_video_limit_result in H.
  pose proof (SubscriptionFacts.update_usage_metrics_run month uid "videos_created" 1
                (app_subscriptions a)) as Hu.
  change (Subscription.bump "videos_created" 1 ?r) with
    (Some (Subscription.mk_usage (Subscription.um_user_id r) (Subscription.month r)
             (Subscription.videos_created r + 1) (Subscription.videos_uploaded r)
             (Subscription.api_calls r) (Subscription.storage_used r)
             (Subscription.team_members r))) in Hu.
  destruct Hu as (s' & Hrun & Hrec & Hsub & _ & _).
  unfold create_video, try_except_reraise_http, try_except.
  erewrite run_bind by (apply in_subscriptions_run; exact H).
  cbn [negb]. rewrite app_eta. unfold bind at 1. unfold ret at 1.
  unfold bind at 1. unfold in_videos at 1.
  rewrite VideoFacts.create_video_request_run.
  unfold bind at 1. unfold count_usage at 1. cbn [app_subscriptions app_videos].
  rewrite Hrun. unfold ret.
  eexists _, _. split; [reflexivity|]. cbn [app_videos app_subscriptions Video.rt_world
    Video.rt_tasks Video.videos_file].
  split; [reflexivity|]. do 4 (split; [reflexivity|]). split; [|exact Hsub].
  unfold created. cbn [app_subscriptions].
  unfold Subscription.videos_created_in. unfold Subscription.usage_record in Hrec.
  destruct (Subscription.usage s' !! uid) as [months'|]; [|done]. rewrite Hrec.
  cbn [Subscription.videos_created]. unfold Subscription.usage_record.
  destruct (Subscription.usage (app_subscriptions a) !! uid) as [months|];
    [destruct (months !! month)|]; done.
Qed.



(** X21.  The monthly limit holds through the create route: for a user
    on a known tier with a limit [L] other than -1 whose month count is at
    most [L], every call of the route, refused or served, leaves the count
    at most [L] and the tier as it was. *)
Theorem create_video_keeps_limit utcnow month token_hex uid rq a L :
  limit_of a uid = Some L → L ≠ -1 → created a uid month ≤ L →
  let a' := world (create_video utcnow month token_hex uid rq a) in
  limit_of a' uid = Some L ∧ created a' uid month ≤ L.
Proof.
  intros Hlim Hne Hle a'.
  pose proof (SubscriptionFacts.check_video_limit_run month uid (app_subscriptions a))
    as Hrun.
  unfold limit_of in Hlim.
  destruct (Subscription.subscriptions (app_subscriptions a) !! uid) as [s|] eqn:Hs;
    [|done].
  destruct (Subscription.get_tier_info (Subscription.tier s)) as [ti|] eqn:Hti; [|done].
  cbn in Hlim. injection Hlim as HL.
  destruct ((Subscription.video_limit ti =? -1)
            || (Subscription.videos_created_in (app_subscriptions a) uid month
                <? Subscription.video_limit ti)) eqn:Hb.
  - destruct (create_video_allowed utcnow month token_hex uid rq a)
      as (v & a1 & Hc & _ & _ & _ & _ & _ & Hcr & Hsub).
    { by rewrite Hrun. }
    subst a'. rewrite Hc. unfold world. cbn [snd]. split.
    + unfold limit_of. by rewrite Hsub, Hs, Hti, <- HL.
    + rewrite Hcr. apply orb_true_iff in Hb as [Hb|Hb].
      * apply Z.eqb_eq in Hb. lia.
      * apply Z.ltb_lt in Hb. unfold created. lia.
  - subst a'. rewrite create_video_refused.
    + unfold world. cbn [snd]. split; [|done].
      unfold limit_of. by rewrite Hs, Hti, <- HL.
    + by rewrite Hrun.
Qed.

Lemma create_video_keeps_limit_witness :
  let a' := world (create_video Video.clock "2024-01" "0a1b" "u2"
                     (Video.mk_request "Focaccia" None "baking" None None None None None)
                     sample_app) in
  limit_of a' "u2" = Some 3 ∧ created a' "u2" "2024-01" ≤ 3.
Proof.
  apply (create_video_keeps_limit Video.clock "2024-01" "0a1b" "u2"
           (Video.mk_request "Focaccia" None "baking" None None None None None)
           sample_app 3); [reflexivity | discriminate | by vm_compute].
Defined.



End RoutesFacts.
